(** * Shallow embedding of the MIME decoding core of go-smtpsrv (parser.go)

    Go strings and byte slices are both byte sequences, modelled as Rocq
    [string] (a list of [ascii] bytes).  The Go standard-library primitives
    the parser calls (base64, quoted-printable, charmap tables, the RFC 2047
    word decoder, mime.ParseMediaType, net/mail address and date parsing)
    are collected in two classes, [MimeLib] and [MailLib]; every definition
    of the repository's own code is written against them. *)

From Stdlib Require Import Strings.String Strings.Ascii Lists.List Arith.Arith
  Bool.Bool ZArith.ZArith Lia.
Import ListNotations.
Open Scope string_scope.

(** ** Go [strings] package helpers *)

Module GoStrings.

Definition lower_ascii (c : ascii) : ascii :=
  let n := nat_of_ascii c in
  if Nat.leb 65 n && Nat.leb n 90 then ascii_of_nat (n + 32) else c.

(** strings.HasPrefix *)
Definition has_prefix (pre s : string) : bool := String.prefix pre s.

(** strings.HasSuffix *)
Definition has_suffix (suf s : string) : bool :=
  Nat.leb (String.length suf) (String.length s) &&
  String.eqb (substring (String.length s - String.length suf) (String.length suf) s) suf.

(** strings.TrimSuffix *)
Definition trim_suffix (s suf : string) : string :=
  if has_suffix suf s then substring 0 (String.length s - String.length suf) s else s.

(** strings.Contains *)
Definition contains (s sub : string) : bool :=
  match index 0 sub s with Some _ => true | None => false end.

Fixpoint in_cutset (cutset : string) (c : ascii) : bool :=
  match cutset with
  | EmptyString => false
  | String d r => Ascii.eqb c d || in_cutset r c
  end.

Fixpoint trim_left (cutset s : string) : string :=
  match s with
  | EmptyString => EmptyString
  | String c s' => if in_cutset cutset c then trim_left cutset s' else s
  end.

Fixpoint trim_right (cutset s : string) : string :=
  match s with
  | EmptyString => EmptyString
  | String c s' =>
      let r := trim_right cutset s' in
      if String.eqb r EmptyString && in_cutset cutset c then EmptyString else String c r
  end.

(** strings.Trim(s, cutset) *)
Definition trim (s cutset : string) : string := trim_right cutset (trim_left cutset s).

(** strings.Split(s, sep) for a non-empty separator; [fuel] bounds the
    number of pieces (each piece consumes at least one byte of [s]). *)
Fixpoint split_fuel (fuel : nat) (s sep : string) : list string :=
  match fuel with
  | O => [s]
  | S f =>
      match index 0 sep s with
      | None => [s]
      | Some i =>
          substring 0 i s ::
          split_fuel f (substring (i + String.length sep)
                          (String.length s - (i + String.length sep)) s) sep
      end
  end.

Definition split (s sep : string) : list string := split_fuel (S (String.length s)) s sep.

(** strings.Join(xs, "") *)
Definition join_empty (xs : list string) : string := String.concat "" xs.

Definition char (c : ascii) : string := String c EmptyString.

Definition newline : string := String "010" EmptyString.

(** ** UTF-8 runes (unicode/utf8), for strings.ToLower and strings.TrimSpace *)

(** strings.ToLower on a string whose bytes are all below 0x80 *)
Fixpoint ascii_to_lower (s : string) : string :=
  match s with
  | EmptyString => EmptyString
  | String c s' => String (lower_ascii c) (ascii_to_lower s')
  end.

(** The isASCII/hasUpper scan of strings.ToLower: every byte below utf8.RuneSelf. *)
Fixpoint is_ascii (s : string) : bool :=
  match s with
  | EmptyString => true
  | String c s' => Nat.ltb (nat_of_ascii c) 128 && is_ascii s'
  end.

(** utf8.RuneError *)
Definition rune_error : Z := 65533%Z.

Definition byte_val (c : ascii) : Z := Z.of_nat (nat_of_ascii c).

Definition byte_in (c : ascii) (lo hi : Z) : bool :=
  (lo <=? byte_val c)%Z && (byte_val c <=? hi)%Z.

Definition cont_bits (c : ascii) : Z := Z.land (byte_val c) 63.

(** utf8.DecodeRuneInString on [String c0 s]: the first rune and the bytes
    after it; an invalid, overlong, surrogate or truncated sequence decodes
    as RuneError of width 1. *)
Definition decode_rune (c0 : ascii) (s : string) : Z * string :=
  let b0 := byte_val c0 in
  let bad := (rune_error, s) in
  if (b0 <? 128)%Z then (b0, s)
  else if (b0 <? 194)%Z then bad
  else if (b0 <? 224)%Z then
    match s with
    | String c1 s1 =>
        if byte_in c1 128 191 then (Z.lor (Z.shiftl (Z.land b0 31) 6) (cont_bits c1), s1)
        else bad
    | EmptyString => bad
    end
  else if (b0 <? 240)%Z then
    let lo := if (b0 =? 224)%Z then 160%Z else 128%Z in
    let hi := if (b0 =? 237)%Z then 159%Z else 191%Z in
    match s with
    | String c1 (String c2 s2) =>
        if byte_in c1 lo hi && byte_in c2 128 191 then
          (Z.lor (Z.lor (Z.shiftl (Z.land b0 15) 12) (Z.shiftl (cont_bits c1) 6))
                 (cont_bits c2), s2)
        else bad
    | _ => bad
    end
  else if (b0 <? 245)%Z then
    let lo := if (b0 =? 240)%Z then 144%Z else 128%Z in
    let hi := if (b0 =? 244)%Z then 143%Z else 191%Z in
    match s with
    | String c1 (String c2 (String c3 s3)) =>
        if byte_in c1 lo hi && byte_in c2 128 191 && byte_in c3 128 191 then
          (Z.lor (Z.lor (Z.lor (Z.shiftl (Z.land b0 7) 18) (Z.shiftl (cont_bits c1) 12))
                        (Z.shiftl (cont_bits c2) 6)) (cont_bits c3), s3)
        else bad
    | _ => bad
    end
  else bad.

Definition zbyte (z : Z) : ascii := ascii_of_nat (Z.to_nat z).

(** utf8.AppendRune (strings.Builder.WriteRune): a negative, too large or
    surrogate code point is written as RuneError. *)
Definition encode_rune (r0 : Z) : string :=
  let r := if (r0 <? 0)%Z || (1114111 <? r0)%Z || ((55296 <=? r0)%Z && (r0 <=? 57343)%Z)
           then rune_error else r0 in
  if (r <? 128)%Z then String (zbyte r) EmptyString
  else if (r <? 2048)%Z then
    String (zbyte (192 + Z.shiftr r 6)) (String (zbyte (128 + Z.land r 63)) EmptyString)
  else if (r <? 65536)%Z then
    String (zbyte (224 + Z.shiftr r 12))
      (String (zbyte (128 + Z.land (Z.shiftr r 6) 63))
        (String (zbyte (128 + Z.land r 63)) EmptyString))
  else
    String (zbyte (240 + Z.shiftr r 18))
      (String (zbyte (128 + Z.land (Z.shiftr r 12) 63))
        (String (zbyte (128 + Z.land (Z.shiftr r 6) 63))
          (String (zbyte (128 + Z.land r 63)) EmptyString))).

(** strings.Map(mapping, s): every rune of [s] (RuneError for an invalid
    byte) replaced by its image, a negative image dropping the rune.
    [fuel] is the byte count: each step consumes at least one byte. *)
Fixpoint map_runes (fuel : nat) (mapping : Z -> Z) (s : string) : string :=
  match fuel, s with
  | S n, String c s' =>
      let (r, rest) := decode_rune c s' in
      let m := mapping r in
      (if (m <? 0)%Z then EmptyString else encode_rune m) ++ map_runes n mapping rest
  | _, _ => EmptyString
  end.

Definition string_map (mapping : Z -> Z) (s : string) : string :=
  map_runes (String.length s) mapping s.

(** strings.ToLower, for a given unicode.ToLower: bytes-wise on an ASCII
    string, strings.Map(unicode.ToLower, s) otherwise. *)
Definition go_to_lower (unicode_lower : Z -> Z) (s : string) : string :=
  if is_ascii s then ascii_to_lower s else string_map unicode_lower s.

(** The runes unicode.IsSpace accepts: \t \n \v \f \r, space, U+0085,
    U+00A0, and the White_Space runes U+1680, U+2000 to U+200A, U+2028,
    U+2029, U+202F, U+205F and U+3000. *)
Definition space_runes : list Z :=
  [9; 10; 11; 12; 13; 32; 133; 160; 5760;
   8192; 8193; 8194; 8195; 8196; 8197; 8198; 8199; 8200; 8201; 8202;
   8232; 8233; 8239; 8287; 12288]%Z.

(** Their UTF-8 encodings.  A string's first rune (decoded forwards) is a
    space exactly when the string starts with one of them, and its last
    rune (utf8.DecodeLastRuneInString) exactly when it ends with one. *)
Definition space_encodings : list string := map encode_rune space_runes.

Fixpoint trim_left_space (fuel : nat) (s : string) : string :=
  match fuel with
  | O => s
  | S n =>
      match find (fun e => has_prefix e s) space_encodings with
      | Some e => trim_left_space n (substring (String.length e) (String.length s) s)
      | None => s
      end
  end.

Fixpoint trim_right_space (fuel : nat) (s : string) : string :=
  match fuel with
  | O => s
  | S n =>
      match find (fun e => has_suffix e s) space_encodings with
      | Some e => trim_right_space n (substring 0 (String.length s - String.length e) s)
      | None => s
      end
  end.

(** strings.TrimSpace: leading, then trailing unicode.IsSpace runes removed
    (each step removes at least one byte, so the length is enough fuel). *)
Definition trim_space (s : string) : string :=
  let l := trim_left_space (String.length s) s in
  trim_right_space (String.length l) l.


End GoStrings.

Import GoStrings.

(** ** Data model *)

(** mail.Header / textproto.MIMEHeader: canonical key to its values, in order. *)
Definition mheader := list (string * list string).

Definition upper_ascii (c : ascii) : ascii :=
  let n := nat_of_ascii c in
  if Nat.leb 97 n && Nat.leb n 122 then ascii_of_nat (n - 32) else c.

(** textproto.CanonicalMIMEHeaderKey: upper case at the start and after
    each hyphen, lower case elsewhere. *)
Fixpoint canonical_key_from (upper : bool) (k : string) : string :=
  match k with
  | EmptyString => EmptyString
  | String c k' =>
      String (if upper then upper_ascii c else lower_ascii c)
             (canonical_key_from (Ascii.eqb c "-") k')
  end.

Definition canonical_key (k : string) : string := canonical_key_from true k.

(** Header.Get: the first value stored under the canonical form of the key,
    or the empty string; stored keys are canonical (the readers store them so). *)
Fixpoint header_get (h : mheader) (k : string) : string :=
  match h with
  | [] => ""
  | (k', vs) :: h' =>
      if String.eqb (canonical_key k) k' then match vs with v :: _ => v | [] => "" end
      else header_get h' k
  end.

(** A MIME entity as the mime/multipart reader delivers it: its header, its
    body bytes, the error its Read returns once they are delivered ([None]
    for io.EOF; io.ErrUnexpectedEOF for a part cut off before its closing
    boundary), and, for every boundary string, the sequence of sub-parts
    that multipart.NewReader(body, boundary) yields through NextPart. *)
Inductive part : Type :=
| Part (hdr : mheader) (body : string) (body_err : option string) (sub : string -> parts)
with parts : Type :=
| PEnd                       (* NextPart returns io.EOF *)
| PErr (e : string)          (* NextPart returns another error *)
| PNext (p : part) (rest : parts).

Definition part_header (p : part) : mheader := match p with Part h _ _ _ => h end.
Definition part_body (p : part) : string := match p with Part _ b _ _ => b end.
Definition part_read_err (p : part) : option string := match p with Part _ _ e _ => e end.

(** The four golang.org/x/text charmaps the parser knows. *)
Inductive charmap := Windows1252 | ISO8859_1 | KOI8R | Windows1251.

(** io.Reader values built by the parser: the part stream itself, a
    bytes.Reader over a buffer, or a charmap decoder wrapped around a reader. *)
Inductive reader :=
| RPart
| RBytes (b : string)
| RCharmap (cm : charmap) (r : reader).

(** Errors returned by the parser (fmt.Errorf values and library errors). *)
Inductive goerr :=
| ErrReadMessage
| ErrMediaType (ct : string)
| ErrUnknownEncoding (enc : string)
| ErrBase64
| ErrQuotedPrintable
| ErrMultipart (e : string)
| ErrInnerType (ctx ct : string)
| ErrAddress
| ErrTime
| ErrRead (e : string).

(** Go's (io.Reader, error) pair where exactly one side is non-nil. *)
Inductive res (A : Type) := Ok (a : A) | Err (e : goerr).
Arguments Ok {A} a.
Arguments Err {A} e.

(** A Go call either returns normally or panics. *)
Inductive outcome (A : Type) := Normal (a : A) | Panic (msg : string).
Arguments Normal {A} a.
Arguments Panic {A} msg.

Notation "'let!' p ':=' m 'in' k" :=
  (match m with Normal p => k | Panic e => Panic e end)
  (at level 200, p pattern, m at level 100, k at level 200).

Record Attachment := mkAttachment {
  at_Filename : string;
  at_ContentType : string;
  at_Data : option reader }.

Definition zero_attachment := mkAttachment "" "" None.

Record EmbeddedFile := mkEmbeddedFile {
  ef_CID : string;
  ef_ContentType : string;
  ef_Data : option reader }.

Definition zero_embedded := mkEmbeddedFile "" "" None.

(** ** Standard-library primitives used by the MIME core *)

Class MimeLib := {
  (** base64.StdEncoding decoding of a whole input *)
  base64_decode : string -> option string;
  (** io.ReadAll(quotedprintable.NewReader(..)) *)
  qp_decode : string -> option string;
  (** the UTF-8 bytes a charmap decoder emits for one input byte *)
  charmap_rune : charmap -> ascii -> string;
  (** new(mime.WordDecoder).Decode *)
  word_decode : string -> option string;
  (** mime.ParseMediaType *)
  parse_media_type : string -> option (string * list (string * string));
  (** multipart.Part.FileName, from the part header *)
  part_file_name : mheader -> string;
  (** fmt.Sprintf("%d", time.Now().UnixNano()) at the call *)
  unix_nano_now : string;
  (** unicode.ToLower on one rune *)
  unicode_to_lower : Z -> Z;
  (** io.ReadAll(base64.NewDecoder(base64.StdEncoding, r)) when [r] yields
      the given bytes and then a read error: whether the decoder reports a
      CorruptInputError before it reaches that read error *)
  base64_corrupt_first : string -> bool;
  (** the same for io.ReadAll(quotedprintable.NewReader(r)) *)
  qp_corrupt_first : string -> bool
}.

Section Mime.
Context {ML : MimeLib}.

(** strings.ToLower *)
Definition to_lower (s : string) : string := go_to_lower unicode_to_lower s.

(** ** Charset Transcoder: decodeCharset *)

(** The UTF-8 output of a charmap decoder over a byte buffer. *)
Fixpoint transcode (cm : charmap) (b : string) : string :=
  match b with
  | EmptyString => EmptyString
  | String c b' => charmap_rune cm c ++ transcode cm b'
  end.

(** The decoders map literal of decodeCharset. *)
Definition decoders : list (string * charmap) :=
  [("windows-1252", Windows1252); ("iso-8859-1", ISO8859_1);
   ("koi8-r", KOI8R); ("windows-1251", Windows1251)].

Fixpoint lookup_decoder (m : list (string * charmap)) (k : string) : option charmap :=
  match m with
  | [] => None
  | (k', cm) :: m' => if String.eqb k k' then Some cm else lookup_decoder m' k
  end.

(** The cutset of the strings.Trim call: space, double quote, single quote, LF, CR. *)
Definition charset_cutset : string :=
  String " " (String "034" (String "'" (String "010" (String "013" EmptyString)))).

(** The charset name decodeCharset computes from its content-type argument. *)
Definition charset_of (contentTypeWithCharset : string) : string :=
  if contains contentTypeWithCharset "; charset=" then
    let sp := split contentTypeWithCharset "; charset=" in
    to_lower (trim (nth 1 sp "") charset_cutset)
  else "default".

Definition decodeCharset (content : reader) (contentTypeWithCharset : string) : reader :=
  let charset := charset_of contentTypeWithCharset in
  if negb (String.eqb charset "default") then
    match lookup_decoder decoders charset with
    | Some decoder => RCharmap decoder content
    | None => content
    end
  else content.

(** io.ReadAll over a reader, given the unread bytes of the part stream
    and the error the part reports once they are read ([None]: io.EOF);
    returns the bytes read, the error, and the stream left over.  A
    bytes.Reader never fails; a charmap decoder passes on the error of the
    reader it wraps, after the bytes read before it. *)
Fixpoint read_all (r : reader) (stream : string) (rerr : option string)
  : string * option goerr * string :=
  match r with
  | RPart => (stream, option_map ErrRead rerr, EmptyString)
  | RBytes b => (b, None, stream)
  | RCharmap cm r' =>
      let '(b, err, st) := read_all r' stream rerr in (transcode cm b, err, st)
  end.

(** ** Transfer-Encoding Decoder: decodeContent

    [stream] is the unread rest of the part passed as [content] and
    [rerr] the error the part reports after it; the function returns its
    result together with what is left of the stream. *)
Definition decodeContent (stream : string) (rerr : option string)
  (encoding contentTypeWithCharset : string) : res reader * string :=
  let enc := to_lower encoding in
  if String.eqb enc "base64" then
    match rerr with
    | None =>
        match base64_decode stream with
        | Some b => (Ok (decodeCharset (RBytes b) contentTypeWithCharset), EmptyString)
        | None => (Err ErrBase64, EmptyString)
        end
    | Some e =>
        (Err (if base64_corrupt_first stream then ErrBase64 else ErrRead e), EmptyString)
    end
  else if String.eqb enc "7bit" || String.eqb enc "8bit" then
    let '(dd, err, rest) := read_all RPart stream rerr in
    match err with
    | Some e => (Err e, rest)
    | None => (Ok (decodeCharset (RBytes dd) contentTypeWithCharset), rest)
    end
  else if String.eqb enc "quoted-printable" then
    match rerr with
    | None =>
        match qp_decode stream with
        | Some b => (Ok (decodeCharset (RBytes b) contentTypeWithCharset), EmptyString)
        | None => (Err ErrQuotedPrintable, EmptyString)
        end
    | Some e =>
        (Err (if qp_corrupt_first stream then ErrQuotedPrintable else ErrRead e), EmptyString)
    end
  else if String.eqb enc "" then
    (Ok (decodeCharset RPart contentTypeWithCharset), stream)
  else (Err (ErrUnknownEncoding encoding), stream).

(** ** Encoded-Word Header Decoder *)

(** Go slice expression s[lo:hi]: panics unless lo <= hi <= len(s). *)
Definition go_slice (s : string) (lo hi : nat) : outcome string :=
  if Nat.leb lo hi && Nat.leb hi (String.length s) then Normal (substring lo (hi - lo) s)
  else Panic "runtime error: slice bounds out of range".

(** Go index expression s[i] on a string: panics unless i < len(s). *)
Definition go_index (s : string) (i : nat) : outcome ascii :=
  match String.get i s with
  | Some c => Normal c
  | None => Panic "runtime error: index out of range"
  end.

Definition prefixLen : nat := 11.

(** decodeKoi8.  [len(s) - 2] is taken in nat: it is only evaluated once
    s[0:11] has succeeded, where it equals Go's int subtraction. *)
Definition decodeKoi8 (s : string) : outcome (bool * string) :=
  if negb (has_prefix "=?koi8-r" (to_lower s)) then Normal (false, "") else
  let! s0 := go_slice s 0 prefixLen in
  let prefix := to_lower s0 in
  let! origin := go_slice s prefixLen (String.length s - 2) in
  let! enc := go_index prefix (prefixLen - 2) in
  let decoded :=
    if Ascii.eqb enc "b" then base64_decode origin
    else if Ascii.eqb enc "q" then qp_decode origin
    else None in
  match decoded with
  | None => Normal (false, "")
  | Some decodedOrigin => Normal (true, transcode KOI8R decodedOrigin)
  end.

(** The loop over the space-separated words of decodeMimeSentence. *)
Fixpoint decode_words (result : list string) (ss : list string) : list string :=
  match ss with
  | [] => result
  | word :: ss' =>
      let w := match word_decode word with
               | Some w => w
               | None => if Nat.eqb (List.length result) 0 then word else " " ++ word
               end in
      decode_words (result ++ [w]) ss'
  end.

Definition decodeMimeSentence (s : string) : outcome string :=
  let! (success, str) := decodeKoi8 s in
  if success then Normal str
  else Normal (join_empty (decode_words [] (split s " "))).

(** ** Content-Type Resolver *)

Fixpoint sanitize_loop (seen : list string) (params : list string) : list string :=
  match params with
  | [] => []
  | p0 :: ps =>
      let p := trim_space p0 in
      if String.eqb p "" then sanitize_loop seen ps
      else if contains p "=" then
        let key := to_lower (nth 0 (split p "=") "") in
        if existsb (String.eqb key) seen then sanitize_loop seen ps
        else p :: sanitize_loop (key :: seen) ps
      else p :: sanitize_loop seen ps
  end.

Definition sanitizeContentTypeHeader (contentType : string) : string :=
  String.concat "; " (sanitize_loop [] (split contentType ";")).

Definition contentTypeMultipartMixed := "multipart/mixed".
Definition contentTypeMultipartAlternative := "multipart/alternative".
Definition contentTypeMultipartRelated := "multipart/related".
Definition contentTypeTextHtml := "text/html".
Definition contentTypeTextPlain := "text/plain".

Definition parseContentType (contentTypeHeader : string)
  : string * list (string * string) * option goerr :=
  if String.eqb contentTypeHeader "" then (contentTypeTextPlain, [], None)
  else match parse_media_type (sanitizeContentTypeHeader contentTypeHeader) with
       | Some (mediaType, params) => (mediaType, params, None)
       | None => ("", [], Some (ErrMediaType contentTypeHeader))
       end.

(** params["boundary"] *)
Fixpoint param_get (params : list (string * string)) (k : string) : string :=
  match params with
  | [] => ""
  | (k', v) :: ps => if String.eqb k k' then v else param_get ps k
  end.


(** ** Multipart Walker *)

Definition isEmbeddedFile (p : part) : bool :=
  negb (String.eqb (header_get (part_header p) "Content-Transfer-Encoding") "").

Definition isAttachment (p : part) (contentType : string) : bool :=
  negb (String.eqb (part_file_name (part_header p)) "") ||
  String.eqb contentType "application/octet-stream".

Definition decodeEmbeddedFile (p : part) : outcome (EmbeddedFile * option goerr) :=
  let h := part_header p in
  let! cid := decodeMimeSentence (header_get h "Content-Id") in
  match fst (decodeContent (part_body p) (part_read_err p)
                (header_get h "Content-Transfer-Encoding") (header_get h "Content-Type")) with
  | Err e => Normal (zero_embedded, Some e)
  | Ok decoded =>
      Normal (mkEmbeddedFile (trim cid "<>") (header_get h "Content-Type") (Some decoded), None)
  end.

Definition decodeAttachment (p : part) : outcome (Attachment * option goerr) :=
  let h := part_header p in
  let! filename0 := decodeMimeSentence (part_file_name h) in
  let filename := if String.eqb filename0 "" then "attachment-" ++ unix_nano_now
                  else filename0 in
  let (decoded, stream) := decodeContent (part_body p) (part_read_err p)
                             (header_get h "Content-Transfer-Encoding")
                             (header_get h "Content-Type") in
  match decoded with
  | Err e => Normal (zero_attachment, Some e)
  | Ok decoded =>
      let ctype := nth 0 (split (header_get h "Content-Type") ";") "" in
      if String.eqb ctype "application/octet-stream" then
        (* data, err := io.ReadAll(part); if err != nil { return at, err } *)
        let '(data, err, _) := read_all RPart stream (part_read_err p) in
        match err with
        | Some e => Normal (mkAttachment filename ctype (Some decoded), Some e)
        | None => Normal (mkAttachment filename ctype (Some (RBytes data)), None)
        end
      else Normal (mkAttachment filename ctype (Some decoded), None)
  end.

(** newPart := decodeContent(part, ..); ppContent := io.ReadAll(newPart);
    the trimmed string appended to a body accumulator. *)
Definition decode_text_leaf (p : part) : res string :=
  let h := part_header p in
  match decodeContent (part_body p) (part_read_err p)
          (header_get h "Content-Transfer-Encoding") (header_get h "Content-Type") with
  | (Err e, _) => Err e
  | (Ok newPart, stream) =>
      let '(ppContent, err, _) := read_all newPart stream (part_read_err p) in
      match err with
      | Some e => Err e
      | None => Ok (trim_suffix ppContent newline)
      end
  end.

Definition alt_result := (string * string * list EmbeddedFile * option goerr)%type.

(** The NextPart loops of parseMultipartAlternative and parseMultipartRelated. *)
Fixpoint alternative_loop (ps : parts) (textBody htmlBody : string)
  (embeddedFiles : list EmbeddedFile) {struct ps} : outcome alt_result :=
  match ps with
  | PEnd => Normal (textBody, htmlBody, embeddedFiles, None)
  | PErr e => Normal (textBody, htmlBody, embeddedFiles, Some (ErrMultipart e))
  | PNext p rest =>
      match p with
      | Part h body berr sub =>
          let ct := header_get h "Content-Type" in
          match parse_media_type (sanitizeContentTypeHeader ct) with
          | None => Normal (textBody, htmlBody, embeddedFiles, Some (ErrMediaType ct))
          | Some (contentType, params) =>
              if String.eqb contentType contentTypeTextPlain then
                match decode_text_leaf p with
                | Err e => Normal (textBody, htmlBody, embeddedFiles, Some e)
                | Ok s => alternative_loop rest (textBody ++ s) htmlBody embeddedFiles
                end
              else if String.eqb contentType contentTypeTextHtml then
                match decode_text_leaf p with
                | Err e => Normal (textBody, htmlBody, embeddedFiles, Some e)
                | Ok s => alternative_loop rest textBody (htmlBody ++ s) embeddedFiles
                end
              else if String.eqb contentType contentTypeMultipartRelated then
                let! (tb, hb, ef, err) := related_loop (sub (param_get params "boundary")) "" "" [] in
                match err with
                | Some e => Normal (textBody, htmlBody, embeddedFiles, Some e)
                | None => alternative_loop rest (textBody ++ tb) (htmlBody ++ hb) (embeddedFiles ++ ef)
                end
              else if isEmbeddedFile p then
                let! (ef, err) := decodeEmbeddedFile p in
                match err with
                | Some e => Normal (textBody, htmlBody, embeddedFiles, Some e)
                | None => alternative_loop rest textBody htmlBody (embeddedFiles ++ [ef])
                end
              else Normal (textBody, htmlBody, embeddedFiles,
                           Some (ErrInnerType contentTypeMultipartAlternative contentType))
          end
      end
  end
with related_loop (ps : parts) (textBody htmlBody : string)
  (embeddedFiles : list EmbeddedFile) {struct ps} : outcome alt_result :=
  match ps with
  | PEnd => Normal (textBody, htmlBody, embeddedFiles, None)
  | PErr e => Normal (textBody, htmlBody, embeddedFiles, Some (ErrMultipart e))
  | PNext p rest =>
      match p with
      | Part h body berr sub =>
          let ct := header_get h "Content-Type" in
          match parse_media_type (sanitizeContentTypeHeader ct) with
          | None => Normal (textBody, htmlBody, embeddedFiles, Some (ErrMediaType ct))
          | Some (contentType, params) =>
              if String.eqb contentType contentTypeTextPlain then
                (* ppContent, err := io.ReadAll(part) *)
                let '(ppContent, err, _) := read_all RPart body berr in
                match err with
                | Some e => Normal (textBody, htmlBody, embeddedFiles, Some e)
                | None =>
                    related_loop rest (textBody ++ trim_suffix ppContent newline) htmlBody
                      embeddedFiles
                end
              else if String.eqb contentType contentTypeTextHtml then
                let '(ppContent, err, _) := read_all RPart body berr in
                match err with
                | Some e => Normal (textBody, htmlBody, embeddedFiles, Some e)
                | None =>
                    related_loop rest textBody (htmlBody ++ trim_suffix ppContent newline)
                      embeddedFiles
                end
              else if String.eqb contentType contentTypeMultipartAlternative then
                let! (tb, hb, ef, err) := alternative_loop (sub (param_get params "boundary")) "" "" [] in
                match err with
                | Some e => Normal (textBody, htmlBody, embeddedFiles, Some e)
                | None => related_loop rest (textBody ++ tb) (htmlBody ++ hb) (embeddedFiles ++ ef)
                end
              else if isEmbeddedFile p then
                let! (ef, err) := decodeEmbeddedFile p in
                match err with
                | Some e => Normal (textBody, htmlBody, embeddedFiles, Some e)
                | None => related_loop rest textBody htmlBody (embeddedFiles ++ [ef])
                end
              else Normal (textBody, htmlBody, embeddedFiles,
                           Some (ErrInnerType contentTypeMultipartRelated contentType))
          end
      end
  end.

Definition parseMultipartAlternative (msg : part) (boundary : string) : outcome alt_result :=
  match msg with Part _ _ _ sub => alternative_loop (sub boundary) "" "" [] end.

Definition parseMultipartRelated (msg : part) (boundary : string) : outcome alt_result :=
  match msg with Part _ _ _ sub => related_loop (sub boundary) "" "" [] end.
Definition mixed_result :=
  (string * string * list Attachment * list EmbeddedFile * option goerr)%type.

(** The NextPart loop of parseMultipartMixed.  The nested Alternative and
    Related results are assigned to the accumulators, as the source does
    with [textBody, htmlBody, embeddedFiles, err = parseMultipart...(..)]. *)
Fixpoint mixed_loop (ps : parts) (textBody htmlBody : string)
  (attachments : list Attachment) (embeddedFiles : list EmbeddedFile) : outcome mixed_result :=
  match ps with
  | PEnd => Normal (textBody, htmlBody, attachments, embeddedFiles, None)
  | PErr e => Normal (textBody, htmlBody, attachments, embeddedFiles, Some (ErrMultipart e))
  | PNext p rest =>
      let ct := header_get (part_header p) "Content-Type" in
      match parse_media_type (sanitizeContentTypeHeader ct) with
      | None => Normal (textBody, htmlBody, attachments, embeddedFiles, Some (ErrMediaType ct))
      | Some (contentType, params) =>
          if String.eqb contentType contentTypeMultipartAlternative then
            let! (tb, hb, ef, err) := parseMultipartAlternative p (param_get params "boundary") in
            match err with
            | Some e => Normal (tb, hb, attachments, ef, Some e)
            | None => mixed_loop rest tb hb attachments ef
            end
          else if String.eqb contentType contentTypeMultipartRelated then
            let! (tb, hb, ef, err) := parseMultipartRelated p (param_get params "boundary") in
            match err with
            | Some e => Normal (tb, hb, attachments, ef, Some e)
            | None => mixed_loop rest tb hb attachments ef
            end
          else if String.eqb contentType contentTypeTextPlain then
            match decode_text_leaf p with
            | Err e => Normal (textBody, htmlBody, attachments, embeddedFiles, Some e)
            | Ok s => mixed_loop rest (textBody ++ s) htmlBody attachments embeddedFiles
            end
          else if String.eqb contentType contentTypeTextHtml then
            match decode_text_leaf p with
            | Err e => Normal (textBody, htmlBody, attachments, embeddedFiles, Some e)
            | Ok s => mixed_loop rest textBody (htmlBody ++ s) attachments embeddedFiles
            end
          else if isAttachment p contentType then
            let! (att, err) := decodeAttachment p in
            match err with
            | Some e => Normal (textBody, htmlBody, attachments, embeddedFiles, Some e)
            | None => mixed_loop rest textBody htmlBody (attachments ++ [att]) embeddedFiles
            end
          else Normal (textBody, htmlBody, attachments, embeddedFiles,
                       Some (ErrInnerType contentTypeMultipartMixed contentType))
      end
  end.

Definition parseMultipartMixed (msg : part) (boundary : string) : outcome mixed_result :=
  match msg with Part _ _ _ sub => mixed_loop (sub boundary) "" "" [] [] end.

(** decodeHeaderMime: every value of every header run through
    decodeMimeSentence; the returned error is always nil. *)
Fixpoint decode_values (vs : list string) : outcome (list string) :=
  match vs with
  | [] => Normal []
  | v :: vs' =>
      let! d := decodeMimeSentence v in
      let! ds := decode_values vs' in
      Normal (d :: ds)
  end.

Fixpoint decode_header_entries (h : mheader) : outcome mheader :=
  match h with
  | [] => Normal []
  | (name, vs) :: h' =>
      let! vs' := decode_values vs in
      let! h'' := decode_header_entries h' in
      Normal ((name, vs') :: h'')
  end.

Definition decodeHeaderMime (header : mheader) : outcome (mheader * option goerr) :=
  let! parsed := decode_header_entries header in
  Normal (parsed, None).

End Mime.

(** ** Header Field Parser *)

Record Address := mkAddress { addr_Name : string; addr_Address : string }.

(** time.Time, as an offset from Go's zero instant. *)
Definition Time := Z.
Definition zero_time : Time := 0%Z.

Class MailLib := {
  (** mail.ParseAddress *)
  parse_address : string -> option Address;
  (** mail.ParseAddressList *)
  parse_address_list : string -> option (list Address);
  (** time.Parse(layout, value) *)
  time_parse : string -> string -> option Time;
  (** mail.ReadMessage: the header and the body of the message *)
  read_message : string -> option (mheader * part)
}.

(** The Email struct; nil pointers and readers are [None], nil slices [[]]. *)
Record Email := mkEmail {
  em_Header : mheader;
  em_Subject : string;
  em_Sender : option Address;
  em_From : list Address;
  em_ReplyTo : list Address;
  em_To : list Address;
  em_Cc : list Address;
  em_Bcc : list Address;
  em_Date : Time;
  em_MessageID : string;
  em_InReplyTo : list string;
  em_References : list string;
  em_ResentFrom : list Address;
  em_ResentSender : option Address;
  em_ResentTo : list Address;
  em_ResentDate : Time;
  em_ResentCc : list Address;
  em_ResentBcc : list Address;
  em_ResentMessageID : string;
  em_ContentType : string;
  em_Content : option reader;
  em_HTMLBody : string;
  em_TextBody : string;
  em_Attachments : list Attachment;
  em_EmbeddedFiles : list EmbeddedFile }.

(** Assignment to email.Header *)
Definition set_Header (e : Email) (h : mheader) : Email :=
  mkEmail h (em_Subject e) (em_Sender e) (em_From e) (em_ReplyTo e) (em_To e) (em_Cc e)
    (em_Bcc e) (em_Date e) (em_MessageID e) (em_InReplyTo e) (em_References e)
    (em_ResentFrom e) (em_ResentSender e) (em_ResentTo e) (em_ResentDate e) (em_ResentCc e)
    (em_ResentBcc e) (em_ResentMessageID e) (em_ContentType e) (em_Content e)
    (em_HTMLBody e) (em_TextBody e) (em_Attachments e) (em_EmbeddedFiles e).

(** Assignment to the body fields of the email (ContentType, Content,
    HTMLBody, TextBody, Attachments, EmbeddedFiles). *)
Definition set_body (e : Email) (ct : string) (content : option reader) (html text : string)
  (ats : list Attachment) (efs : list EmbeddedFile) : Email :=
  mkEmail (em_Header e) (em_Subject e) (em_Sender e) (em_From e) (em_ReplyTo e) (em_To e)
    (em_Cc e) (em_Bcc e) (em_Date e) (em_MessageID e) (em_InReplyTo e) (em_References e)
    (em_ResentFrom e) (em_ResentSender e) (em_ResentTo e) (em_ResentDate e) (em_ResentCc e)
    (em_ResentBcc e) (em_ResentMessageID e) ct content html text ats efs.

Record headerParser := mkHeaderParser {
  hp_header : mheader;
  hp_err : option goerr }.

Definition set_err (hp : headerParser) (e : option goerr) : headerParser :=
  mkHeaderParser (hp_header hp) e.

(** hp.err != nil *)
Definition has_err (hp : headerParser) : bool :=
  match hp_err hp with Some _ => true | None => false end.

Section Header.
Context {ML : MimeLib} {AL : MailLib}.

(** The methods of headerParser have value receivers: each call works on a
    copy of the parser.  Every method returns its result together with the
    copy as the method body left it; the callers only use the result. *)

Definition addr_cutset : string := String " " (String "010" EmptyString).

Definition parseAddress (hp : headerParser) (s : string) : option Address * headerParser :=
  if has_err hp then (None, hp) else
  if negb (String.eqb (trim s addr_cutset) "") then
    match parse_address s with
    | Some ma => (Some ma, set_err hp None)
    | None => (None, set_err hp (Some ErrAddress))
    end
  else (None, hp).

Definition parseAddressList (hp : headerParser) (s : string) : list Address * headerParser :=
  if has_err hp then ([], hp) else
  if negb (String.eqb (trim s addr_cutset) "") then
    match parse_address_list s with
    | Some ma => (ma, set_err hp None)
    | None => ([], set_err hp (Some ErrAddress))
    end
  else ([], hp).

(** time.RFC1123Z and the three other layouts, in order *)
Definition time_formats : list string :=
  [ "Mon, 02 Jan 2006 15:04:05 -0700";
    "Mon, 2 Jan 2006 15:04:05 -0700";
    "Mon, 02 Jan 2006 15:04:05 -0700" ++ " (MST)";
    "Mon, 2 Jan 2006 15:04:05 -0700 (MST)" ].

(** for _, format := range formats { t, hp.err = time.Parse(format, s); if hp.err == nil { return } } *)
Fixpoint parse_time_loop (hp : headerParser) (t : Time) (s : string) (formats : list string)
  : Time * headerParser :=
  match formats with
  | [] => (t, hp)
  | format :: fs =>
      match time_parse format s with
      | Some t' => (t', set_err hp None)
      | None => parse_time_loop (set_err hp (Some ErrTime)) zero_time s fs
      end
  end.

Definition parseTime (hp : headerParser) (s : string) : Time * headerParser :=
  if has_err hp || String.eqb s "" then (zero_time, hp)
  else parse_time_loop hp zero_time s time_formats.

Definition msgid_cutset : string := "<> ".

Definition parseMessageId (hp : headerParser) (s : string) : string :=
  if has_err hp then "" else trim s msgid_cutset.

Definition parseMessageIdList (hp : headerParser) (s : string) : list string :=
  if has_err hp then [] else
  flat_map (fun p => if negb (String.eqb (trim p addr_cutset) "") then [parseMessageId hp p] else [])
           (split s " ").

(** createEmailFromHeader: every field parse goes through the same [hp]
    value, [hp := headerParser{header: &header}]. *)
Definition createEmailFromHeader (header : mheader) : outcome (Email * option goerr) :=
  let hp := mkHeaderParser header None in
  let! subject := decodeMimeSentence (header_get header "Subject") in
  let email := mkEmail []
    subject
    (fst (parseAddress hp (header_get header "Sender")))
    (fst (parseAddressList hp (header_get header "From")))
    (fst (parseAddressList hp (header_get header "Reply-To")))
    (fst (parseAddressList hp (header_get header "To")))
    (fst (parseAddressList hp (header_get header "Cc")))
    (fst (parseAddressList hp (header_get header "Bcc")))
    (fst (parseTime hp (header_get header "Date")))
    (parseMessageId hp (header_get header "Message-ID"))
    (parseMessageIdList hp (header_get header "In-Reply-To"))
    (parseMessageIdList hp (header_get header "References"))
    (fst (parseAddressList hp (header_get header "Resent-From")))
    (fst (parseAddress hp (header_get header "Resent-Sender")))
    (fst (parseAddressList hp (header_get header "Resent-To")))
    (fst (parseTime hp (header_get header "Resent-Date")))
    (fst (parseAddressList hp (header_get header "Resent-Cc")))
    (fst (parseAddressList hp (header_get header "Resent-Bcc")))
    (parseMessageId hp (header_get header "Resent-Message-ID"))
    "" None "" "" [] [] in
  match hp_err hp with
  | Some e => Normal (email, Some e)
  | None =>
      let! (h, err) := decodeHeaderMime header in
      Normal (set_Header email h, err)
  end.

(** ParseEmail; the first component is the returned *Email (nil is [None]). *)
Definition ParseEmail (r : string) : outcome (option Email * option goerr) :=
  match read_message r with
  | None => Normal (None, Some ErrReadMessage)
  | Some (msgHeader, msgBody) =>
      let! (email, err) := createEmailFromHeader msgHeader in
      match err with
      | Some e => Normal (Some email, Some e)
      | None =>
          let ct := header_get msgHeader "Content-Type" in
          let email := set_body email ct (em_Content email) (em_HTMLBody email)
                         (em_TextBody email) (em_Attachments email) (em_EmbeddedFiles email) in
          let '(contentType, params, err) := parseContentType ct in
          match err with
          | Some e => Normal (Some email, Some e)
          | None =>
              let cte := header_get msgHeader "Content-Transfer-Encoding" in
              if String.eqb contentType contentTypeMultipartMixed then
                let! (tb, hb, ats, efs, err) := parseMultipartMixed msgBody (param_get params "boundary") in
                Normal (Some (set_body email ct (em_Content email) hb tb ats efs), err)
              else if String.eqb contentType contentTypeMultipartAlternative then
                let! (tb, hb, efs, err) := parseMultipartAlternative msgBody (param_get params "boundary") in
                Normal (Some (set_body email ct (em_Content email) hb tb (em_Attachments email) efs), err)
              else if String.eqb contentType contentTypeMultipartRelated then
                let! (tb, hb, efs, err) := parseMultipartRelated msgBody (param_get params "boundary") in
                Normal (Some (set_body email ct (em_Content email) hb tb (em_Attachments email) efs), err)
              else if String.eqb contentType contentTypeTextPlain then
                match decodeContent (part_body msgBody) (part_read_err msgBody) cte ct with
                | (Err e, _) => Normal (Some email, Some e)
                | (Ok newPart, st) =>
                    (* message, _ := io.ReadAll(newPart) *)
                    let '(message, _, _) := read_all newPart st (part_read_err msgBody) in
                    Normal (Some (set_body email ct (em_Content email) (em_HTMLBody email)
                                    (trim_suffix message newline) (em_Attachments email)
                                    (em_EmbeddedFiles email)), None)
                end
              else if String.eqb contentType contentTypeTextHtml then
                match decodeContent (part_body msgBody) (part_read_err msgBody) cte ct with
                | (Err e, _) => Normal (Some email, Some e)
                | (Ok newPart, st) =>
                    let '(message, err, _) := read_all newPart st (part_read_err msgBody) in
                    match err with
                    | Some e => Normal (Some email, Some e)
                    | None =>
                        Normal (Some (set_body email ct (em_Content email) (trim_suffix message newline)
                                        (em_TextBody email) (em_Attachments email)
                                        (em_EmbeddedFiles email)), None)
                    end
                end
              else
                match fst (decodeContent (part_body msgBody) (part_read_err msgBody) cte ct) with
                | Err e => Normal (Some (set_body email ct None (em_HTMLBody email) (em_TextBody email)
                                          (em_Attachments email) (em_EmbeddedFiles email)), Some e)
                | Ok c => Normal (Some (set_body email ct (Some c) (em_HTMLBody email) (em_TextBody email)
                                        (em_Attachments email) (em_EmbeddedFiles email)), None)
                end
          end
      end
  end.

End Header.

(** ** A concrete standard library for evaluating inputs

    Executable stand-ins for the Go primitives, used to run the parser on
    concrete messages: base64.StdEncoding, the RFC 2047 word decoder of
    package mime and quoted-printable follow the Go algorithms; the
    media-type, file-name, address, date and message readers accept the
    plain forms used in the concrete inputs of this file.  Of the charmap
    tables, ISO-8859-1 is exact and the others are exact on ASCII; their
    upper halves (not used by any concrete input here) map to U+FFFD. *)

Module GoLibModel.

Definition b64_val (c : ascii) : option nat :=
  let n := nat_of_ascii c in
  if Nat.leb 65 n && Nat.leb n 90 then Some (n - 65)
  else if Nat.leb 97 n && Nat.leb n 122 then Some (n - 71)
  else if Nat.leb 48 n && Nat.leb n 57 then Some (n + 4)
  else if Nat.eqb n 43 then Some 62
  else if Nat.eqb n 47 then Some 63
  else None.

Definition byte (n : nat) : ascii := ascii_of_nat n.

(** Quanta of four characters; padding only in the last quantum. *)
Fixpoint b64_quanta (cs : list ascii) : option string :=
  match cs with
  | [] => Some EmptyString
  | a :: b :: c :: d :: rest =>
      match b64_val a, b64_val b with
      | Some va, Some vb =>
          let b1 := byte (va * 4 + vb / 16) in
          if Ascii.eqb c "=" && Ascii.eqb d "=" then
            match rest with [] => Some (String b1 EmptyString) | _ => None end
          else match b64_val c with
            | None => None
            | Some vc =>
                let b2 := byte ((vb mod 16) * 16 + vc / 4) in
                if Ascii.eqb d "=" then
                  match rest with [] => Some (String b1 (String b2 EmptyString)) | _ => None end
                else match b64_val d, b64_quanta rest with
                  | Some vd, Some r =>
                      Some (String b1 (String b2 (String (byte ((vc mod 4) * 64 + vd)) r)))
                  | _, _ => None
                  end
            end
      | _, _ => None
      end
  | _ => None
  end.

(** base64.StdEncoding.DecodeString: CR and LF are skipped. *)
Definition b64_decode (s : string) : option string :=
  b64_quanta (filter (fun c => negb (Ascii.eqb c "010" || Ascii.eqb c "013"))
                (list_ascii_of_string s)).

Definition hex_val (c : ascii) : option nat :=
  let n := nat_of_ascii c in
  if Nat.leb 48 n && Nat.leb n 57 then Some (n - 48)
  else if Nat.leb 65 n && Nat.leb n 70 then Some (n - 55)
  else if Nat.leb 97 n && Nat.leb n 102 then Some (n - 87)
  else None.

(** qDecode of package mime (the Q encoding of RFC 2047). *)
Fixpoint q_decode (cs : list ascii) : option string :=
  match cs with
  | [] => Some EmptyString
  | c :: rest =>
      if Ascii.eqb c "_" then option_map (String " ") (q_decode rest)
      else if Ascii.eqb c "=" then
        match rest with
        | h1 :: h2 :: rest' =>
            match hex_val h1, hex_val h2 with
            | Some v1, Some v2 => option_map (String (byte (v1 * 16 + v2))) (q_decode rest')
            | _, _ => None
            end
        | _ => None
        end
      else
        let n := nat_of_ascii c in
        if (Nat.leb 32 n && Nat.leb n 126) || Nat.eqb n 10 || Nat.eqb n 13 || Nat.eqb n 9
        then option_map (String c) (q_decode rest) else None
  end.

(** quotedprintable.Reader: "=XX" escapes and soft line breaks. *)
Fixpoint qp_bytes (cs : list ascii) : option string :=
  match cs with
  | [] => Some EmptyString
  | c :: rest =>
      if Ascii.eqb c "=" then
        match rest with
        | "013"%char :: "010"%char :: rest' => qp_bytes rest'
        | "010"%char :: rest' => qp_bytes rest'
        | h1 :: h2 :: rest' =>
            match hex_val h1, hex_val h2 with
            | Some v1, Some v2 => option_map (String (byte (v1 * 16 + v2))) (qp_bytes rest')
            | _, _ => None
            end
        | _ => None
        end
      else option_map (String c) (qp_bytes rest)
  end.

Definition qp_dec (s : string) : option string := qp_bytes (list_ascii_of_string s).

(** UTF-8 encoding of a code point below U+0800 *)
Definition utf8_2 (n : nat) : string :=
  if Nat.ltb n 128 then String (byte n) EmptyString
  else String (byte (192 + n / 64)) (String (byte (128 + n mod 64)) EmptyString).

Definition replacement_char : string :=
  String (byte 239) (String (byte 191) (String (byte 189) EmptyString)).

Definition charmap_model (cm : charmap) (c : ascii) : string :=
  let n := nat_of_ascii c in
  if Nat.ltb n 128 then String c EmptyString
  else match cm with ISO8859_1 => utf8_2 n | _ => replacement_char end.

Fixpoint count_char (c : ascii) (s : string) : nat :=
  match s with
  | EmptyString => 0
  | String d s' => (if Ascii.eqb c d then 1 else 0) + count_char c s'
  end.

(** strings.Cut(s, sep) *)
Definition cut (s sep : string) : string * string :=
  match index 0 sep s with
  | Some i => (substring 0 i s, substring (i + String.length sep) (String.length s) s)
  | None => (s, EmptyString)
  end.

(** unicode.ToLower on the Latin-1, Latin Extended-A dotted I, Greek,
    Cyrillic and letterlike-symbol ranges (the rest of the table is the
    identity here). *)
Definition unicode_lower_model (r : Z) : Z :=
  if (65 <=? r)%Z && (r <=? 90)%Z then (r + 32)%Z
  else if (192 <=? r)%Z && (r <=? 222)%Z && negb (r =? 215)%Z then (r + 32)%Z
  else if (r =? 304)%Z then 105%Z
  else if (913 <=? r)%Z && (r <=? 939)%Z && negb (r =? 930)%Z then (r + 32)%Z
  else if (1024 <=? r)%Z && (r <=? 1039)%Z then (r + 80)%Z
  else if (1040 <=? r)%Z && (r <=? 1071)%Z then (r + 32)%Z
  else if (r =? 8486)%Z then 969%Z
  else if (r =? 8490)%Z then 107%Z
  else if (r =? 8491)%Z then 229%Z
  else r.

(** strings.ToLower with that table *)
Definition lower (s : string) : string := go_to_lower unicode_lower_model s.

Fixpoint map_bytes (f : ascii -> string) (s : string) : string :=
  match s with
  | EmptyString => EmptyString
  | String c s' => f c ++ map_bytes f s'
  end.

(** The Decode method of mime.WordDecoder, without a CharsetReader *)
Definition word_dec (word : string) : option string :=
  if Nat.ltb (String.length word) 8 || negb (has_prefix "=?" word)
     || negb (has_suffix "?=" word) || negb (Nat.eqb (count_char "?" word) 4)
  then None else
  let w := substring 2 (String.length word - 4) word in
  let (charset, text) := cut w "?" in
  if String.eqb charset "" then None else
  let (encoding, text) := cut text "?" in
  match encoding with
  | String e EmptyString =>
      let content :=
        if Ascii.eqb e "B" || Ascii.eqb e "b" then b64_decode text
        else if Ascii.eqb e "Q" || Ascii.eqb e "q" then q_decode (list_ascii_of_string text)
        else None in
      match content with
      | None => None
      | Some content =>
          let cs := lower charset in
          if String.eqb cs "utf-8" then Some content
          else if String.eqb cs "iso-8859-1" then Some (map_bytes (fun c => utf8_2 (nat_of_ascii c)) content)
          else if String.eqb cs "us-ascii" then
            Some (map_bytes (fun c => if Nat.ltb (nat_of_ascii c) 128 then String c EmptyString
                                      else replacement_char) content)
          else None
      end
  | _ => None
  end.

Definition unquote (v : string) : string :=
  if Nat.leb 2 (String.length v) && has_prefix (String "034" EmptyString) v
     && has_suffix (String "034" EmptyString) v
  then substring 1 (String.length v - 2) v else v.

Fixpoint media_params (ps : list string) (acc : list (string * string))
  : option (list (string * string)) :=
  match ps with
  | [] => Some acc
  | p0 :: ps' =>
      let p := trim_space p0 in
      if String.eqb p "" then media_params ps' acc else
      match index 0 "=" p with
      | None => None
      | Some i =>
          let k := lower (trim_space (substring 0 i p)) in
          let v := unquote (trim_space (substring (i + 1) (String.length p) p)) in
          if String.eqb k "" || existsb (fun kv => String.eqb k (fst kv)) acc then None
          else media_params ps' (acc ++ [(k, v)])
      end
  end.

(** mime.ParseMediaType on values without quoted semicolons *)
Definition media_type (v : string) : option (string * list (string * string)) :=
  match split v ";" with
  | [] => None
  | mt0 :: ps =>
      let mt := lower (trim_space mt0) in
      if String.eqb mt "" then None
      else option_map (fun params => (mt, params)) (media_params ps [])
  end.

(** A base64.NewDecoder reads whole quanta of four characters: it reports
    corrupt input before a read error when the complete quanta delivered
    before that error do not decode. *)
Definition b64_corrupt_first (s : string) : bool :=
  let cs := filter (fun c => negb (Ascii.eqb c "010" || Ascii.eqb c "013"))
              (list_ascii_of_string s) in
  match b64_quanta (firstn (4 * (List.length cs / 4)) cs) with
  | Some _ => false
  | None => true
  end.

(** A quotedprintable.Reader decodes line by line: it reports a bad escape
    before a read error when the complete lines delivered before that
    error do not decode. *)
Definition qp_corrupt_first_model (s : string) : bool :=
  let cs := list_ascii_of_string s in
  let fix upto_last_nl (cs : list ascii) (acc line : list ascii) : list ascii :=
    match cs with
    | [] => acc
    | c :: cs' =>
        if Ascii.eqb c "010" then upto_last_nl cs' (acc ++ line ++ [c])%list []
        else upto_last_nl cs' acc (line ++ [c])%list
    end in
  match qp_bytes (upto_last_nl cs [] []) with
  | Some _ => false
  | None => true
  end.

(** Part.FileName: the filename parameter of Content-Disposition *)
Definition file_name (h : mheader) : string :=
  match media_type (header_get h "Content-Disposition") with
  | Some (_, ps) => param_get ps "filename"
  | None => ""
  end.

#[export] Instance mime_model : MimeLib := {|
  base64_decode := b64_decode;
  qp_decode := qp_dec;
  charmap_rune := charmap_model;
  word_decode := word_dec;
  parse_media_type := media_type;
  part_file_name := file_name;
  unix_nano_now := "1700000000000000000";
  unicode_to_lower := unicode_lower_model;
  base64_corrupt_first := b64_corrupt_first;
  qp_corrupt_first := qp_corrupt_first_model |}.

(** mail.ParseAddress on [local@domain] and [Name <local@domain>] *)
Definition addr_model (s : string) : option Address :=
  let t := trim_space s in
  let '(name, a) :=
    match index 0 "<" t with
    | Some i => (trim_space (substring 0 i t),
                 trim_suffix (substring (i + 1) (String.length t) t) ">")
    | None => ("", t)
    end in
  if contains a "@" && negb (contains a " ") && negb (String.eqb a "")
  then Some (mkAddress name a) else None.

Fixpoint all_some {A} (xs : list (option A)) : option (list A) :=
  match xs with
  | [] => Some []
  | Some x :: xs' => option_map (cons x) (all_some xs')
  | None :: _ => None
  end.

Definition addr_list_model (s : string) : option (list Address) :=
  all_some (map addr_model (split s ",")).

Fixpoint digits_value (s : string) (acc : nat) : option nat :=
  match s with
  | EmptyString => Some acc
  | String c s' =>
      let n := nat_of_ascii c in
      if Nat.leb 48 n && Nat.leb n 57 then digits_value s' (acc * 10 + (n - 48)) else None
  end.

(** a number of [lo] to [hi] decimal digits *)
Definition number (lo hi : nat) (s : string) : option nat :=
  if Nat.leb lo (String.length s) && Nat.leb (String.length s) hi && negb (String.eqb s "")
  then digits_value s 0 else None.

Definition month_names : list string :=
  ["Jan"; "Feb"; "Mar"; "Apr"; "May"; "Jun"; "Jul"; "Aug"; "Sep"; "Oct"; "Nov"; "Dec"].

Definition day_names : list string :=
  ["Mon,"; "Tue,"; "Wed,"; "Thu,"; "Fri,"; "Sat,"; "Sun,"].

Fixpoint position (x : string) (xs : list string) (i : nat) : option nat :=
  match xs with
  | [] => None
  | y :: ys => if String.eqb x y then Some i else position x ys (S i)
  end.

(** days from 1970-01-01 to a civil date (proleptic Gregorian) *)
Definition days_from_civil (y m d : Z) : Z :=
  let y' := if (m <=? 2)%Z then (y - 1)%Z else y in
  let era := (y' / 400)%Z in
  let yoe := (y' - era * 400)%Z in
  let mp := if (m >? 2)%Z then (m - 3)%Z else (m + 9)%Z in
  let doy := ((153 * mp + 2) / 5 + d - 1)%Z in
  let doe := (yoe * 365 + yoe / 4 - yoe / 100 + doy)%Z in
  (era * 146097 + doe - 719468)%Z.

Definition leap (y : nat) : bool :=
  (Nat.eqb (y mod 4) 0 && negb (Nat.eqb (y mod 100) 0)) || Nat.eqb (y mod 400) 0.

Definition days_in (y m : nat) : nat :=
  nth (m - 1) [31; if leap y then 29 else 28; 31; 30; 31; 30; 31; 31; 30; 31; 30; 31] 0.

(** time.Parse for the four layouts of parseTime: [zero_day] selects the
    two-digit day of time.RFC1123Z, [zone_name] the trailing "(MST)". *)
Definition time_model_layout (zero_day zone_name : bool) (s : string) : option Time :=
  let toks := split s " " in
  match toks with
  | dow :: dd :: mon :: yyyy :: hms :: zone :: more =>
      let names_ok :=
        match more with
        | [] => negb zone_name
        | [tz] => zone_name && has_prefix "(" tz && has_suffix ")" tz
                  && Nat.leb 5 (String.length tz)
        | _ => false
        end in
      match position dow day_names 0, number (if zero_day then 2 else 1) 2 dd,
            position mon month_names 0, number 4 4 yyyy,
            number 2 2 (substring 0 2 hms), number 2 2 (substring 3 2 hms),
            number 2 2 (substring 6 2 hms), number 4 4 (substring 1 4 zone) with
      | Some _, Some d, Some m0, Some y, Some hh, Some mi, Some ss, Some z =>
          let m := S m0 in
          let sign := substring 0 1 zone in
          if names_ok && Nat.eqb (String.length hms) 8
             && String.eqb (substring 2 1 hms) ":" && String.eqb (substring 5 1 hms) ":"
             && Nat.eqb (String.length zone) 5 && (String.eqb sign "+" || String.eqb sign "-")
             && Nat.leb 1 d && Nat.leb d (days_in y m)
             && Nat.ltb hh 24 && Nat.ltb mi 60 && Nat.ltb ss 60
          then
            let off := (Z.of_nat (z / 100) * 3600 + Z.of_nat (z mod 100) * 60)%Z in
            let off := if String.eqb sign "-" then (- off)%Z else off in
            Some (days_from_civil (Z.of_nat y) (Z.of_nat m) (Z.of_nat d) * 86400
                  + Z.of_nat hh * 3600 + Z.of_nat mi * 60 + Z.of_nat ss - off
                  + 62135596800)%Z
          else None
      | _, _, _, _, _, _, _, _ => None
      end
  | _ => None
  end.

Definition time_model (layout s : string) : option Time :=
  if String.eqb layout "Mon, 02 Jan 2006 15:04:05 -0700" then time_model_layout true false s
  else if String.eqb layout "Mon, 2 Jan 2006 15:04:05 -0700" then time_model_layout false false s
  else if String.eqb layout "Mon, 02 Jan 2006 15:04:05 -0700 (MST)" then time_model_layout true true s
  else if String.eqb layout "Mon, 2 Jan 2006 15:04:05 -0700 (MST)" then time_model_layout false true s
  else None.

Definition crlf : string := String "013" (String "010" EmptyString).

Fixpoint add_header (h : mheader) (k v : string) : mheader :=
  match h with
  | [] => [(k, [v])]
  | (k', vs) :: h' => if String.eqb k k' then (k', (vs ++ [v])%list) :: h' else (k', vs) :: add_header h' k v
  end.

(** textproto header lines, CRLF terminated, with folded continuations *)
Fixpoint header_lines (ls : list string) (h : mheader) (cur : option (string * string)) : mheader :=
  let flush := match cur with Some (k, v) => add_header h k v | None => h end in
  match ls with
  | [] => flush
  | l :: ls' =>
      if has_prefix " " l || has_prefix (String "009" EmptyString) l then
        match cur with
        | Some (k, v) => header_lines ls' h (Some (k, v ++ " " ++ trim_space l))
        | None => header_lines ls' h None
        end
      else match index 0 ":" l with
        | Some i =>
            header_lines ls' flush
              (Some (canonical_key (substring 0 i l),
                     trim_space (substring (i + 1) (String.length l) l)))
        | None => header_lines ls' flush None
        end
  end.

(** header block and body of an entity *)
Definition split_head (t : string) : mheader * string :=
  if has_prefix crlf t then ([], substring 2 (String.length t) t) else
  match index 0 (crlf ++ crlf) t with
  | Some i => (header_lines (split (substring 0 i t) crlf) [] None,
               substring (i + 4) (String.length t) t)
  | None => (header_lines (split t crlf) [] None, "")
  end.

(** the rest of a boundary line *)
Definition after_line (t : string) : string :=
  match index 0 crlf t with
  | Some i => substring (i + 2) (String.length t) t
  | None => ""
  end.

(** multipart.NewReader(body, boundary) and its NextPart calls; [fuel]
    bounds the nesting depth. *)
Fixpoint mp_split (fuel : nat) (body boundary : string) : parts :=
  match fuel with
  | O => PErr "multipart: NextPart: EOF"
  | S f =>
      let delim := "--" ++ boundary in
      let fix loop (n : nat) (rest : string) : parts :=
        match n with
        | O => PErr "multipart: NextPart: EOF"
        | S n' =>
            match index 0 (crlf ++ delim) rest with
            | None =>
                (* a part cut off before its boundary: its Read ends in
                   io.ErrUnexpectedEOF, and the next NextPart fails *)
                let '(h, b) := split_head rest in
                PNext (Part h b (Some "unexpected EOF") (fun bd => mp_split f b bd))
                      (PErr "multipart: NextPart: EOF")
            | Some j =>
                let after := substring (j + 2 + String.length delim) (String.length rest) rest in
                let '(h, b) := split_head (substring 0 j rest) in
                let p := Part h b None (fun bd => mp_split f b bd) in
                if has_prefix "--" after then PNext p PEnd
                else PNext p (loop n' (after_line after))
            end
        end in
      match index 0 delim body with
      | None => PErr "multipart: NextPart: EOF"
      | Some i =>
          let after := substring (i + String.length delim) (String.length body) body in
          if has_prefix "--" after then PEnd else loop (String.length body) (after_line after)
      end
  end.

(** mail.ReadMessage on a CRLF message; a header block that runs to the
    end of the input is accepted (io.EOF with a non-empty header), with an
    empty body. *)
Definition read_message_model (s : string) : option (mheader * part) :=
  let '(h, b) := split_head s in
  match index 0 (crlf ++ crlf) s, h with
  | None, [] => None
  | _, _ => Some (h, Part h b None (fun bd => mp_split (String.length s) b bd))
  end.

#[export] Instance mail_model : MailLib := {|
  parse_address := addr_model;
  parse_address_list := addr_list_model;
  time_parse := time_model;
  read_message := read_message_model |}.

End GoLibModel.

(** ** Properties *)

Section Properties.
Context {ML : MimeLib} {AL : MailLib}.

Definition recognized_encodings : list string :=
  ["base64"; "quoted-printable"; "7bit"; "8bit"; ""].

Ltac eqb_cases :=
  repeat match goal with
  | |- context [String.eqb ?a ?b] => destruct (String.eqb_spec a b)
  end.

(** C8: decodeContent dispatches on the lowercased Content-Transfer-Encoding;
    it fails with the unknown-encoding error exactly when that value is none
    of base64, quoted-printable, 7bit, 8bit and the empty string.  For 7bit
    and 8bit it reads the part: when the read succeeds the bytes pass
    through (only the charset step is applied), and when the part's Read
    fails (a truncated multipart part) that read error is returned.  The
    empty string never fails and leaves the part unread.  base64 and
    quoted-printable fail only in their own stream decoders or with the
    part's read error; no recognized value fails on the dispatch itself. *)
Theorem decodeContent_dispatch :
  forall (stream : string) (rerr : option string) (encoding ct : string),
    ((exists st', decodeContent stream rerr encoding ct = (Err (ErrUnknownEncoding encoding), st'))
       <-> ~ In (to_lower encoding) recognized_encodings)
    /\ (In (to_lower encoding) ["7bit"; "8bit"] ->
        decodeContent stream rerr encoding ct =
          (match rerr with
           | None => Ok (decodeCharset (RBytes stream) ct)
           | Some m => Err (ErrRead m)
           end, EmptyString))
    /\ (to_lower encoding = "" ->
        decodeContent stream rerr encoding ct = (Ok (decodeCharset RPart ct), stream))
    /\ (forall e st', decodeContent stream rerr encoding ct = (Err e, st') ->
        In (to_lower encoding) recognized_encodings ->
        e = ErrBase64 \/ e = ErrQuotedPrintable \/ exists m, rerr = Some m /\ e = ErrRead m).
Proof.
  intros stream rerr encoding ct. unfold decodeContent, recognized_encodings.
  set (enc := to_lower encoding). clearbody enc.
  split; [|split; [|split]].
  - split.
    + intros [st' H] Hin. simpl in Hin.
      destruct Hin as [E|[E|[E|[E|[E|[]]]]]]; subst enc; simpl in H;
        destruct rerr; simpl in H;
        repeat match type of H with context [match ?x with _ => _ end] => destruct x end;
        discriminate.
    + intros Hnin. exists stream. simpl in Hnin. eqb_cases; simpl;
        try (exfalso; apply Hnin; intuition congruence); reflexivity.
  - intros [E|[E|[]]]; subst enc; simpl; destruct rerr; reflexivity.
  - intros E. subst enc. reflexivity.
  - intros e st' H Hin. simpl in Hin.
    destruct Hin as [E|[E|[E|[E|[E|[]]]]]]; subst enc; simpl in H;
      destruct rerr; simpl in H;
      repeat match type of H with context [match ?x with _ => _ end] => destruct x end;
      inversion H; subst;
      first [left; reflexivity | right; left; reflexivity
            | right; right; eexists; split; reflexivity].
Qed.


Lemma lookup_decoder_spec :
  forall name cm, lookup_decoder decoders name = Some cm <-> In (name, cm) decoders.
Proof.
  intros name cm. simpl. eqb_cases; subst.
  - split; [intros H; inversion H; subst; auto | intros [H|[H|[H|[H|[]]]]]; congruence].
  - split; [intros H; inversion H; subst; auto | intros [H|[H|[H|[H|[]]]]]; congruence].
  - split; [intros H; inversion H; subst; auto | intros [H|[H|[H|[H|[]]]]]; congruence].
  - split; [intros H; inversion H; subst; auto | intros [H|[H|[H|[H|[]]]]]; congruence].
  - split; [discriminate | intros [H|[H|[H|[H|[]]]]]; congruence].
Qed.

(** C7: decodeCharset never fails and is a function of its arguments: the
    bytes are transcoded by the charmap of the extracted charset name
    (the text after the first literal "; charset=", trimmed and lowercased)
    when that name is one of the four map keys, and returned unchanged
    otherwise, in particular when the separator is absent.  The transcoder
    [transcode] maps every byte (it is a total function of the bytes), so
    reading the result never errors, whatever the state of the part. *)
Theorem decodeCharset_total :
  forall (ct b stream : string) (rerr : option string),
    read_all (decodeCharset (RBytes b) ct) stream rerr =
      (match lookup_decoder decoders (charset_of ct) with
       | Some cm => transcode cm b
       | None => b
       end, None, stream)
    /\ (contains ct "; charset=" = false ->
        read_all (decodeCharset (RBytes b) ct) stream rerr = (b, None, stream))
    /\ (forall cm, lookup_decoder decoders (charset_of ct) = Some cm <->
          contains ct "; charset=" = true /\ In (charset_of ct, cm) decoders).
Proof.
  intros ct b stream rerr. split; [|split].
  - unfold decodeCharset. destruct (String.eqb_spec (charset_of ct) "default") as [E|E].
    + rewrite E. reflexivity.
    + destruct (lookup_decoder decoders (charset_of ct)); reflexivity.
  - intros H. unfold decodeCharset, charset_of. rewrite H. reflexivity.
  - intros cm. rewrite lookup_decoder_spec. unfold charset_of.
    destruct (contains ct "; charset=") eqn:Hc.
    + tauto.
    + simpl. split; [intros [H|[H|[H|[H|[]]]]]; discriminate | intros [H _]; discriminate].
Qed.

(** The error slot of a header parser after the date-format loop. *)
Lemma parse_time_loop_err :
  forall formats hp t s,
    has_err (snd (parse_time_loop hp t s formats)) = true <->
    (formats = [] /\ has_err hp = true) \/
    (formats <> [] /\ forall f, In f formats -> time_parse f s = None).
Proof.
  induction formats as [|f fs IH]; intros hp t s; simpl.
  - split; [intros H; left; auto | intros [[_ H]|[H _]]; [exact H | congruence]].
  - destruct (time_parse f s) eqn:Ht.
    + simpl. split; [discriminate|].
      intros [[H _]|[_ H]]; [discriminate|]. rewrite (H f (or_introl eq_refl)) in Ht. discriminate.
    + rewrite IH. simpl. split.
      * intros [[E _]|[_ H]]; right; split; try discriminate;
          intros g [G|G]; subst; auto; contradiction.
      * intros [[H _]|[_ H]]; [discriminate|].
        destruct fs as [|f' fs'].
        -- left; auto.
        -- right. split; [discriminate | intros g Hg; apply H; auto].
Qed.

(** createEmailFromHeader never reports an error, and leaves the body
    fields at their zero values. *)
Lemma createEmailFromHeader_result :
  forall header em err,
    createEmailFromHeader header = Normal (em, err) ->
    err = None /\ em_Content em = None /\ em_TextBody em = "" /\ em_HTMLBody em = ""
    /\ em_Attachments em = [] /\ em_EmbeddedFiles em = []
    /\ em_Date em = fst (parseTime (mkHeaderParser header None) (header_get header "Date")).
Proof.
  intros header em err. unfold createEmailFromHeader.
  destruct (decodeMimeSentence (header_get header "Subject")); [|discriminate].
  simpl. unfold decodeHeaderMime.
  destruct (decode_header_entries header); [|discriminate].
  intros H. inversion H. subst. simpl. repeat split; reflexivity.
Qed.

(** C10: an empty Date (absent headers read as the empty string) makes
    parseTime return the zero time and leave the parser untouched; the
    parse error is recorded only for a non-empty value that none of the
    four layouts accepts; and an empty Date never makes createEmailFromHeader
    fail. *)
Theorem parseTime_empty_date :
  (forall hp, parseTime hp "" = (zero_time, hp))
  /\ (forall header s,
        has_err (snd (parseTime (mkHeaderParser header None) s)) = true <->
        s <> "" /\ forall f, In f time_formats -> time_parse f s = None)
  /\ (forall header,
        header_get header "Date" = "" ->
        match createEmailFromHeader header with
        | Normal (em, err) => em_Date em = zero_time /\ err = None
        | Panic _ => True
        end).
Proof.
  split; [|split].
  - intros hp. unfold parseTime. destruct (has_err hp); reflexivity.
  - intros header s. unfold parseTime.
    change (has_err (mkHeaderParser header None)) with false. rewrite Bool.orb_false_l.
    destruct (String.eqb_spec s "") as [E|E].
    + simpl. split; [discriminate | intros [H _]; contradiction].
    + rewrite parse_time_loop_err. unfold time_formats. simpl.
      split; [intros [[H _]|[_ H]]; [discriminate | auto] | intros [_ H]; right; split; auto; discriminate].
  - intros header HD. destruct (createEmailFromHeader header) as [[em err]|] eqn:Hc; [|exact I].
    apply createEmailFromHeader_result in Hc.
    destruct Hc as [Herr [_ [_ [_ [_ [_ Hd]]]]]]. rewrite Hd, HD. auto.
Qed.


Definition top_level_kinds : list string :=
  [contentTypeMultipartMixed; contentTypeMultipartAlternative; contentTypeMultipartRelated;
   contentTypeTextPlain; contentTypeTextHtml].

(** C9: in every successfully parsed message, a non-nil Content comes only
    from the default branch of the top-level switch: the resolved top-level
    media type is none of the five handled kinds, and TextBody, HTMLBody,
    Attachments and EmbeddedFiles are all empty. *)
Theorem ParseEmail_content_exclusive :
  forall r em,
    ParseEmail r = Normal (Some em, None) ->
    em_Content em <> None ->
    em_TextBody em = "" /\ em_HTMLBody em = "" /\ em_Attachments em = []
    /\ em_EmbeddedFiles em = []
    /\ exists h b, read_message r = Some (h, b)
         /\ ~ In (fst (fst (parseContentType (header_get h "Content-Type")))) top_level_kinds.
Proof.
  intros r em. unfold ParseEmail.
  destruct (read_message r) as [[h b]|]; [|discriminate].
  destruct (createEmailFromHeader h) as [[e err]|] eqn:Hc; [|discriminate].
  destruct (createEmailFromHeader_result _ _ _ Hc) as [-> [Hcont [Ht [Hh [Ha [He _]]]]]].
  destruct (parseContentType (header_get h "Content-Type")) as [[ct params] perr] eqn:Hp.
  destruct perr as [pe|]; [discriminate|].
  destruct (String.eqb_spec ct contentTypeMultipartMixed) as [E1|E1].
  { destruct (parseMultipartMixed b _) as [[[[[tb hb] ats] efs] merr]|]; [|discriminate].
    intros H Hcn; inversion H; subst; simpl in Hcn; contradiction. }
  destruct (String.eqb_spec ct contentTypeMultipartAlternative) as [E2|E2].
  { destruct (parseMultipartAlternative b _) as [[[[tb hb] efs] merr]|]; [|discriminate].
    intros H Hcn; inversion H; subst; simpl in Hcn; contradiction. }
  destruct (String.eqb_spec ct contentTypeMultipartRelated) as [E3|E3].
  { destruct (parseMultipartRelated b _) as [[[[tb hb] efs] merr]|]; [|discriminate].
    intros H Hcn; inversion H; subst; simpl in Hcn; contradiction. }
  destruct (String.eqb_spec ct contentTypeTextPlain) as [E4|E4].
  { destruct (decodeContent (part_body b) _ _ _) as [[np|de] st];
      [destruct (read_all np st _) as [[msg rerr] rest]|];
      intros H Hcn; inversion H; subst; simpl in Hcn; contradiction. }
  destruct (String.eqb_spec ct contentTypeTextHtml) as [E5|E5].
  { destruct (decodeContent (part_body b) _ _ _) as [[np|de] st];
      [destruct (read_all np st _) as [[msg [re|]] rest]|];
      intros H Hcn; inversion H; subst; simpl in Hcn; contradiction. }
  destruct (fst (decodeContent (part_body b) _ _ _)) as [c|de];
    intros H Hcn; inversion H; subst; simpl in Hcn.
  simpl. repeat split; auto.
  exists h, b. split; [reflexivity|]. rewrite Hp. simpl.
  intros [X|[X|[X|[X|[X|[]]]]]]; symmetry in X; contradiction.
Qed.


(** What one space-separated token contributes in the general path of
    decodeMimeSentence: its decoded text, or the token itself, prefixed by
    one space unless it is the first token. *)
Definition token_out (first : bool) (word : string) : string :=
  match word_decode word with
  | Some d => d
  | None => if first then word else " " ++ word
  end.

Definition general_path (ss : list string) : string :=
  match ss with
  | [] => ""
  | w :: ws => fold_right String.append "" (token_out true w :: map (token_out false) ws)
  end.

Lemma append_empty_right : forall s, s ++ "" = s.
Proof. induction s as [|c s IH]; simpl; [reflexivity | rewrite IH; reflexivity]. Qed.

Lemma concat_empty_sep : forall l, String.concat "" l = fold_right String.append "" l.
Proof.
  induction l as [|x l IH]; [reflexivity|].
  destruct l as [|y l]; simpl in *.
  - symmetry. apply append_empty_right.
  - rewrite IH. reflexivity.
Qed.

Lemma decode_words_rest :
  forall ss result, result <> [] ->
    decode_words result ss = (result ++ map (token_out false) ss)%list.
Proof.
  induction ss as [|w ss IH]; intros result Hne; simpl.
  - rewrite app_nil_r. reflexivity.
  - assert (Hl : Nat.eqb (List.length result) 0 = false).
    { destruct result; [contradiction | reflexivity]. }
    rewrite Hl. rewrite IH.
    + rewrite <- app_assoc. reflexivity.
    + destruct result; discriminate.
Qed.

Lemma general_path_spec :
  forall ss, join_empty (decode_words [] ss) = general_path ss.
Proof.
  intros [|w ws]; [reflexivity|].
  unfold join_empty. simpl. rewrite decode_words_rest by discriminate.
  rewrite concat_empty_sep. reflexivity.
Qed.

Lemma decodeMimeSentence_general :
  forall s, has_prefix "=?koi8-r" (to_lower s) = false ->
    decodeMimeSentence s = Normal (general_path (split s " ")).
Proof.
  intros s H. unfold decodeMimeSentence, decodeKoi8. rewrite H. simpl.
  rewrite general_path_spec. reflexivity.
Qed.

(** X15: outside the KOI8-R fast path, decodeMimeSentence splits the value
    on ASCII space; a token that decodes as an encoded word contributes its
    decoded text with no space, a token that does not contributes itself,
    prefixed by one space unless it is the first token.  A literal word
    between two encoded words therefore keeps the space before it and loses
    the one after it. *)
Theorem decodeMimeSentence_general_path :
  forall s, has_prefix "=?koi8-r" (to_lower s) = false ->
    decodeMimeSentence s = Normal (general_path (split s " "))
    /\ (forall e1 lit e2 d1 d2,
          split s " " = [e1; lit; e2] ->
          word_decode e1 = Some d1 -> word_decode lit = None -> word_decode e2 = Some d2 ->
          decodeMimeSentence s = Normal (d1 ++ " " ++ lit ++ d2)).
Proof.
  intros s H. rewrite (decodeMimeSentence_general s H). split; [reflexivity|].
  intros e1 lit e2 d1 d2 Hs H1 Hl H2. rewrite Hs. simpl. unfold token_out.
  rewrite H1, Hl, H2. rewrite append_empty_right. reflexivity.
Qed.

Lemma string_get_none : forall i s, String.get i s = None <-> String.length s <= i.
Proof.
  induction i as [|i IH]; intros [|c s]; simpl; split; intros H; try discriminate; try lia;
    try reflexivity.
  - apply IH in H. lia.
  - apply IH. lia.
Qed.

(** decodeKoi8 step by step: outside the =?koi8-r prefix it reports
    failure; below 13 bytes one of the slices s[0:11], s[11:len(s)-2]
    panics; otherwise prefix[9] panics when strings.ToLower has shrunk the
    11-byte prefix below 10 bytes, and the tenth byte of the lowered prefix
    selects the decoder. *)
Lemma decodeKoi8_spec : forall s,
  decodeKoi8 s =
  if negb (has_prefix "=?koi8-r" (to_lower s)) then Normal (false, "")
  else if Nat.ltb (String.length s) 13 then Panic "runtime error: slice bounds out of range"
  else
    let origin := substring prefixLen (String.length s - 2 - prefixLen) s in
    match String.get 9 (to_lower (substring 0 prefixLen s)) with
    | None => Panic "runtime error: index out of range"
    | Some enc =>
        match (if Ascii.eqb enc "b" then base64_decode origin
               else if Ascii.eqb enc "q" then qp_decode origin else None) with
        | None => Normal (false, "")
        | Some d => Normal (true, transcode KOI8R d)
        end
    end.
Proof.
  intros s. unfold decodeKoi8.
  destruct (has_prefix "=?koi8-r" (to_lower s)); cbn [negb]; [|reflexivity].
  unfold go_slice, prefixLen. change (11 - 0) with 11. change (11 - 2) with 9.
  destruct (Nat.ltb_spec (String.length s) 13) as [L|L].
  - destruct (Nat.leb 0 11 && Nat.leb 11 (String.length s)) eqn:E1; [|reflexivity].
    cbv beta iota.
    apply andb_true_iff in E1 as [_ E1]. apply Nat.leb_le in E1.
    replace (Nat.leb 11 (String.length s - 2) && Nat.leb (String.length s - 2) (String.length s))
      with false; [reflexivity|].
    symmetry. apply andb_false_iff. left. apply Nat.leb_gt. lia.
  - replace (Nat.leb 0 11 && Nat.leb 11 (String.length s)) with true
      by (symmetry; apply andb_true_iff; split; apply Nat.leb_le; lia).
    cbv beta iota.
    replace (Nat.leb 11 (String.length s - 2) && Nat.leb (String.length s - 2) (String.length s))
      with true by (symmetry; apply andb_true_iff; split; apply Nat.leb_le; lia).
    cbv beta iota. unfold go_index.
    destruct (String.get 9 (to_lower (substring 0 11 s))); reflexivity.
Qed.

(** The exact panic condition of decodeMimeSentence: it is the one of
    decodeKoi8, as the general path never panics. *)
Lemma decodeMimeSentence_panic_cond : forall s,
  (exists m, decodeMimeSentence s = Panic m)
  <-> has_prefix "=?koi8-r" (to_lower s) = true
      /\ (String.length s < 13 \/ String.length (to_lower (substring 0 prefixLen s)) < 10).
Proof.
  intros s. unfold decodeMimeSentence. rewrite decodeKoi8_spec.
  destruct (has_prefix "=?koi8-r" (to_lower s)); cbn [negb].
  - destruct (Nat.ltb_spec (String.length s) 13) as [L|L].
    + split; [intros _; split; [reflexivity | left; exact L] | intros _; eexists; reflexivity].
    + cbv zeta.
      destruct (String.get 9 (to_lower (substring 0 prefixLen s))) as [enc|] eqn:G.
      * assert (10 <= String.length (to_lower (substring 0 prefixLen s))).
        { destruct (Nat.le_gt_cases 10 (String.length (to_lower (substring 0 prefixLen s))));
            [assumption|].
          assert (G' : String.get 9 (to_lower (substring 0 prefixLen s)) = None)
            by (apply string_get_none; lia).
          congruence. }
        split; [|intros [_ [H'|H']]; lia].
        intros [m Hm]. destruct (if Ascii.eqb enc "b" then _ else _); discriminate.
      * apply string_get_none in G.
        split; [intros _; split; [reflexivity | right; lia] | intros _; eexists; reflexivity].
  - split; [intros [m Hm]; discriminate | intros [H _]; discriminate].
Qed.



(** C3 (code bug): an application/octet-stream attachment sent with
    Content-Transfer-Encoding base64 ends up with empty Data: decodeContent
    has already read the part to its end, so the second io.ReadAll(part)
    that should capture the raw bytes returns nothing (for a part that is
    read without error; a truncated part fails in decodeContent). *)
Theorem decodeAttachment_octet_stream_base64 :
  forall (p : part) fname d,
    nth 0 (split (header_get (part_header p) "Content-Type") ";") "" = "application/octet-stream" ->
    to_lower (header_get (part_header p) "Content-Transfer-Encoding") = "base64" ->
    part_read_err p = None ->
    decodeMimeSentence (part_file_name (part_header p)) = Normal fname ->
    base64_decode (part_body p) = Some d ->
    exists att, decodeAttachment p = Normal (att, None)
      /\ at_Data att = Some (RBytes "")
      /\ at_ContentType att = "application/octet-stream".
Proof.
  intros p fname d Hct Henc Hre Hname Hb.
  unfold decodeAttachment. rewrite Hname. cbv beta iota.
  unfold decodeContent. rewrite Henc, Hre. cbn [String.eqb Ascii.eqb Bool.eqb andb].
  rewrite Hb. cbv beta iota. rewrite Hct.
  cbn [String.eqb Ascii.eqb Bool.eqb andb read_all option_map].
  eexists. split; [reflexivity|]. split; reflexivity.
Qed.

End Properties.

(** * Runs of the parser on concrete messages, with the library model. *)
Module Evaluations.
Import GoLibModel.

Definition bad_header : mheader :=
  [("From", ["not an address"]); ("To", ["bob@example.com"])].

(** A multipart/mixed message: a text/plain part "A", then a nested
    multipart/alternative part whose text/plain leaf is "B". *)
Definition msg_mixed : string :=
  "Content-Type: multipart/mixed; boundary=b1" ++ crlf ++ crlf
  ++ "--b1" ++ crlf ++ "Content-Type: text/plain" ++ crlf ++ crlf ++ "A" ++ crlf
  ++ "--b1" ++ crlf ++ "Content-Type: multipart/alternative; boundary=b2" ++ crlf ++ crlf
  ++ "--b2" ++ crlf ++ "Content-Type: text/plain" ++ crlf ++ crlf ++ "B" ++ crlf
  ++ "--b2--" ++ crlf ++ "--b1--" ++ crlf.

(** A multipart body with one base64 text/plain leaf (aGk= is hi). *)
Definition b64_text_body : string :=
  "--b" ++ crlf ++ "Content-Type: text/plain" ++ crlf
  ++ "Content-Transfer-Encoding: base64" ++ crlf ++ crlf ++ "aGk=" ++ crlf
  ++ "--b--" ++ crlf.

Definition msg_related : string :=
  "Content-Type: multipart/related; boundary=b" ++ crlf ++ crlf ++ b64_text_body.

Definition msg_alternative : string :=
  "Content-Type: multipart/alternative; boundary=b" ++ crlf ++ crlf ++ b64_text_body.

Definition octet_part : part :=
  Part [("Content-Type", ["application/octet-stream"]);
        ("Content-Transfer-Encoding", ["base64"]);
        ("Content-Disposition", ["attachment; filename=a.bin"])]
       "aGk=" None (fun _ => PEnd).

Definition msg_octet : string :=
  "Content-Type: multipart/mixed; boundary=b1" ++ crlf ++ crlf
  ++ "--b1" ++ crlf ++ "Content-Type: application/octet-stream" ++ crlf
  ++ "Content-Transfer-Encoding: base64" ++ crlf
  ++ "Content-Disposition: attachment; filename=a.bin" ++ crlf ++ crlf
  ++ "aGk=" ++ crlf ++ "--b1--" ++ crlf.

(** A multipart/mixed message whose only part, a 7bit text/plain part, is
    cut off before its closing boundary. *)
Definition msg_cut_7bit : string :=
  "Content-Type: multipart/mixed; boundary=b1" ++ crlf ++ crlf
  ++ "--b1" ++ crlf ++ "Content-Type: text/plain" ++ crlf
  ++ "Content-Transfer-Encoding: 7bit" ++ crlf ++ crlf ++ "abc".

Definition pdf_msg : string :=
  "Content-Type: application/pdf" ++ crlf ++ crlf ++ "XYZ".



Definition online_subject3 : string := "=?UTF-8?B?YQ==?= online =?UTF-8?B?Yg==?=".

Definition online_subject : string :=
  "=?UTF-8?B?YQ==?= =?UTF-8?B?Yg==?= online =?UTF-8?B?Yw==?= =?UTF-8?B?ZA==?=".


(** The input of the test "Email with multiline UTF-8 subject and
    quoted-printable encoding" of the repository's parser tests. *)
Definition test_qp_subject_input : string :=
  "From: sender@example.com" ++ crlf ++ "To: recipient@example.com" ++ crlf
  ++ "Subject: =?utf-8?Q?=D0=9D=D0=BE=D0=B2=D1=8B=D0=B9_=D1=81=D1=87?= "
  ++ "=?utf-8?Q?=D0=B5=D1=82_=D0=B2?= online "
  ++ "=?utf-8?Q?=D0=B7=D0=B0=D0=BA=D0=B0=D0=B7=D0=B5_=E2=84=96?= 1259980".

(** The Subject that test expects. *)
Definition test_qp_subject_expected : string := "Новый счет в online заказе № 1259980".

(** C1 (code bug): the field parsers take the headerParser by value, so the
    error they record lands in a copy; createEmailFromHeader therefore never
    reports a field error, for any library.  With the From field unparsable,
    the From parse does fail, yet the result carries no error and the later
    To field is still parsed. *)
Theorem createEmailFromHeader_error_dropped :
  (forall (ML : MimeLib) (AL : MailLib) header em err,
      @createEmailFromHeader ML AL header = Normal (em, err) -> err = None)
  /\ snd (parseAddressList (mkHeaderParser bad_header None) "not an address")
       = mkHeaderParser bad_header (Some ErrAddress)
  /\ match createEmailFromHeader bad_header with
     | Normal (em, err) =>
         err = None /\ em_From em = []
         /\ em_To em = [mkAddress "" "bob@example.com"]
     | Panic _ => False
     end.
Proof.
  split; [|split].
  - intros ML AL header em err H.
    exact (proj1 (@createEmailFromHeader_result ML AL header em err H)).
  - vm_compute. reflexivity.
  - vm_compute. split; [reflexivity | split; reflexivity].
Qed.

(** C2 (code bug): parseMultipartMixed assigns the nested alternative
    handler's results instead of appending them, so the text "A" of the
    earlier part is lost. *)
Theorem ParseEmail_mixed_nested_overwrites :
  match ParseEmail msg_mixed with
  | Normal (Some em, None) => em_TextBody em = "B" /\ em_TextBody em <> "A" ++ "B"
  | _ => False
  end.
Proof.
  vm_compute. split; [reflexivity | discriminate].
Qed.

(** The same octet-stream attachment, inside a whole message: its Data is
    empty rather than the bytes aGk= of the part body. *)
Lemma ParseEmail_octet_attachment_empty :
  match ParseEmail msg_octet with
  | Normal (Some em, None) =>
      em_Attachments em = [mkAttachment "a.bin" "application/octet-stream" (Some (RBytes ""))]
  | _ => False
  end.
Proof.
  vm_compute. reflexivity.
Qed.

(** C3 witness. *)
Lemma decodeAttachment_octet_stream_base64_witness :
  exists att, decodeAttachment octet_part = Normal (att, None)
    /\ at_Data att = Some (RBytes "")
    /\ at_ContentType att = "application/octet-stream".
Proof.
  apply (decodeAttachment_octet_stream_base64 octet_part "a.bin" "hi");
    vm_compute; reflexivity.
Defined.



(** C5 (code bug): the related handler appends text leaves without
    transfer decoding, the alternative handler decodes them. *)
Theorem related_alternative_text_differ :
  match ParseEmail msg_related, ParseEmail msg_alternative with
  | Normal (Some r, None), Normal (Some a, None) =>
      em_TextBody r = "aGk=" /\ em_TextBody a = "hi" /\ em_TextBody r <> em_TextBody a
  | _, _ => False
  end.
Proof.
  vm_compute. split; [reflexivity | split; [reflexivity | discriminate]].
Qed.

(** C6 (code bug): on the input of the repository's test "Email with
    multiline UTF-8 subject and quoted-printable encoding", ParseEmail
    returns the Subject with the space after the literal word online
    dropped, not the Subject the test expects: an encoded word is appended
    with no space before it, whatever precedes it. *)
Theorem ParseEmail_test_subject_fused :
  match ParseEmail test_qp_subject_input with
  | Normal (Some em, None) =>
      em_Subject em = "Новый счет в onlineзаказе № 1259980"
      /\ em_Subject em <> test_qp_subject_expected
  | _ => False
  end.
Proof.
  vm_compute. split; [reflexivity | discriminate].
Qed.

(** The same with four B-encoded words: the literal word online between
    encoded words keeps the space before it but not the one after it. *)
Lemma decodeMimeSentence_online_fused :
  decodeMimeSentence online_subject = Normal "ab onlinecd"
  /\ decodeMimeSentence online_subject <> Normal "ab online cd".
Proof.
  split; vm_compute; [reflexivity | discriminate].
Qed.

(** X15 witness. *)
Lemma decodeMimeSentence_general_path_witness :
  has_prefix "=?koi8-r" (to_lower online_subject3) = false
  /\ decodeMimeSentence online_subject3 = Normal (general_path (split online_subject3 " "))
  /\ decodeMimeSentence online_subject3 = Normal "a onlineb".
Proof.
  assert (H : has_prefix "=?koi8-r" (to_lower online_subject3) = false) by reflexivity.
  destruct (decodeMimeSentence_general_path online_subject3 H) as [G1 G2].
  split; [exact H|]. split; [exact G1|].
  apply (G2 "=?UTF-8?B?YQ==?=" "online" "=?UTF-8?B?Yg==?=" "a" "b"); vm_compute; reflexivity.
Defined.

(** C9 witness. *)
Lemma ParseEmail_content_exclusive_witness :
  match ParseEmail pdf_msg with
  | Normal (Some em, None) =>
      em_Content em <> None /\ em_TextBody em = "" /\ em_HTMLBody em = ""
      /\ em_Attachments em = [] /\ em_EmbeddedFiles em = []
  | _ => False
  end.
Proof.
  destruct (ParseEmail pdf_msg) as [[[em|] [e|]]|] eqn:E;
    try (vm_compute in E; discriminate).
  pose proof (ParseEmail_content_exclusive pdf_msg) as T.
  assert (Hc : em_Content em <> None).
  { vm_compute in E. injection E as <-. discriminate. }
  destruct (T em E Hc) as [H1 [H2 [H3 [H4 _]]]].
  split; [exact Hc|]. split; [exact H1|]. split; [exact H2|]. split; [exact H3|exact H4].
Defined.

(** C8 witness: 7bit and 8bit (in any case) pass the bytes through when
    the part reads to its end and return the read error otherwise. *)
Lemma decodeContent_dispatch_witness :
  decodeContent "abc" (Some "unexpected EOF") "7BIT" "text/plain"
    = (Err (ErrRead "unexpected EOF"), EmptyString)
  /\ decodeContent "abc" None "8bit" "text/plain"
    = (Ok (decodeCharset (RBytes "abc") "text/plain"), EmptyString).
Proof.
  destruct (decodeContent_dispatch "abc" (Some "unexpected EOF") "7BIT" "text/plain") as [_ [A _]].
  destruct (decodeContent_dispatch "abc" None "8bit" "text/plain") as [_ [B _]].
  split; [apply A | apply B]; vm_compute; auto.
Defined.

(** The truncated 7bit part inside a whole message: ParseEmail reports the
    part's read error. *)
Lemma ParseEmail_truncated_7bit :
  match ParseEmail msg_cut_7bit with
  | Normal (Some em, Some e) => e = ErrRead "unexpected EOF" /\ em_TextBody em = ""
  | _ => False
  end.
Proof.
  vm_compute. split; reflexivity.
Qed.

End Evaluations.

(** * Facts about the strings helpers *)

Section StringFacts.

Lemma str_app_assoc : forall a b c : string, (a ++ b) ++ c = a ++ (b ++ c).
Proof. induction a as [|x a IH]; intros b c; simpl; [reflexivity | rewrite IH; reflexivity]. Qed.

Lemma str_app_length : forall a b : string, String.length (a ++ b) = String.length a + String.length b.
Proof. induction a as [|x a IH]; intros b; simpl; [reflexivity | rewrite IH; reflexivity]. Qed.

Lemma substring_empty : forall n m, substring n m "" = "".
Proof. intros [|n] [|m]; reflexivity. Qed.

Lemma substring_length : forall s n m,
  String.length (substring n m s) = Nat.min m (String.length s - n).
Proof.
  induction s as [|c s IH]; intros n m.
  - rewrite substring_empty. simpl. lia.
  - destruct n as [|n]; [destruct m as [|m]|]; simpl; [reflexivity| |].
    + rewrite IH. lia.
    + rewrite IH. reflexivity.
Qed.

Lemma substring_app : forall s n m k,
  substring n m s ++ substring (n + m) k s = substring n (m + k) s.
Proof.
  induction s as [|c s IH]; intros n m k.
  - rewrite !substring_empty. reflexivity.
  - destruct n as [|n].
    + destruct m as [|m]; [reflexivity|]. simpl. rewrite <- (IH 0 m k). reflexivity.
    + simpl. apply IH.
Qed.

Lemma substring_full : forall s, substring 0 (String.length s) s = s.
Proof. induction s as [|c s IH]; simpl; [reflexivity | rewrite IH; reflexivity]. Qed.

Lemma substring_prefix : forall x y, substring 0 (String.length x) (x ++ y) = x.
Proof.
  induction x as [|c x IH]; intros y; simpl; [destruct y; reflexivity | rewrite IH; reflexivity].
Qed.

Lemma substring_suffix : forall x y, substring (String.length x) (String.length y) (x ++ y) = y.
Proof.
  induction x as [|c x IH]; intros y; simpl; [apply substring_full | apply IH].
Qed.

(** A match of index splits the string around the separator. *)
Lemma index_split : forall sep s i, sep <> "" -> index 0 sep s = Some i ->
  substring 0 i s ++ sep ++ substring (i + String.length sep)
    (String.length s - (i + String.length sep)) s = s.
Proof.
  intros sep s i Hne Hi.
  pose proof (index_correct1 _ _ _ _ Hi) as E.
  assert (Hl : i + String.length sep <= String.length s).
  { pose proof (substring_length s i (String.length sep)) as L. rewrite E in L.
    assert (0 < String.length sep) by (destruct sep; [contradiction | simpl; lia]).
    lia. }
  set (ls := String.length sep) in *.
  rewrite <- E. rewrite <- str_app_assoc.
  pose proof (substring_app s 0 i ls) as A1. cbn [Nat.add] in A1. rewrite A1.
  pose proof (substring_app s 0 (i + ls) (String.length s - (i + ls))) as A2.
  cbn [Nat.add] in A2. rewrite A2.
  replace (i + ls + (String.length s - (i + ls))) with (String.length s) by lia.
  apply substring_full.
Qed.

Lemma split_fuel_cons : forall f s sep, exists x l, split_fuel f s sep = x :: l.
Proof. intros [|f] s sep; simpl; [eauto|]. destruct (index 0 sep s); eauto. Qed.

Lemma concat_cons2 : forall sep a b l,
  String.concat sep (a :: b :: l) = a ++ sep ++ String.concat sep (b :: l).
Proof. reflexivity. Qed.

(** strings.Join(strings.Split(s, sep), sep) == s *)
Lemma concat_split : forall s sep, sep <> "" -> String.concat sep (split s sep) = s.
Proof.
  intros s sep Hne. unfold split. generalize (S (String.length s)) as f.
  intros f. revert s. induction f as [|f IH]; intros s; simpl; [reflexivity|].
  destruct (index 0 sep s) as [i|] eqn:Hi; [|reflexivity].
  destruct (split_fuel_cons f (substring (i + String.length sep)
             (String.length s - (i + String.length sep)) s) sep) as [x [l Hx]].
  rewrite Hx, concat_cons2, <- Hx, IH. apply index_split; assumption.
Qed.

(** [in_cutset x c]: the byte [c] occurs in [x]. *)
Lemma index_char_none : forall c x,
  index 0 (String c "") x = None <-> in_cutset x c = false.
Proof.
  intros c x. induction x as [|a x IH]; [simpl; split; reflexivity|].
  simpl. destruct (ascii_dec c a) as [E|E].
  - subst. rewrite Ascii.eqb_refl. simpl. destruct x; simpl; split; discriminate.
  - replace (Ascii.eqb c a) with false by (symmetry; apply Ascii.eqb_neq; exact E).
    simpl. rewrite <- IH. destruct (index 0 (String c "") x); split; congruence.
Qed.

Lemma index_char_app : forall c x y, in_cutset x c = false ->
  index 0 (String c "") (x ++ String c y) = Some (String.length x).
Proof.
  intros c x y. induction x as [|a x IH]; intros H.
  - simpl. destruct (ascii_dec c c) as [_|n]; [destruct y; reflexivity | contradiction n; reflexivity].
  - simpl in H. apply orb_false_iff in H as [H1 H2]. simpl.
    destruct (ascii_dec c a) as [E|E].
    + subst. rewrite Ascii.eqb_refl in H1. discriminate.
    + rewrite IH by exact H2. reflexivity.
Qed.

Lemma concat_length_ge : forall c l,
  List.length l <= S (String.length (String.concat (String c "") l)).
Proof.
  intros c l. induction l as [|x l IH]; [simpl; lia|].
  destruct l as [|y l]; [simpl; lia|].
  rewrite concat_cons2, str_app_length. cbn [String.append String.length List.length] in *.
  lia.
Qed.

Lemma split_fuel_concat : forall c l f, l <> [] ->
  Forall (fun x => in_cutset x c = false) l -> List.length l <= S f ->
  split_fuel f (String.concat (String c "") l) (String c "") = l.
Proof.
  intros c l. induction l as [|x l IH]; intros f Hne Hf Hl; [contradiction|].
  inversion Hf as [|? ? Hx Hrest]; subst.
  destruct l as [|y l].
  - destruct f; simpl; [reflexivity|].
    apply index_char_none in Hx. change (String.concat (String c "") [x]) with x.
    rewrite Hx. reflexivity.
  - destruct f as [|f]; [simpl in Hl; lia|].
    rewrite concat_cons2. set (r := String.concat (String c "") (y :: l)).
    simpl split_fuel. change (String c "" ++ r) with (String c r).
    rewrite index_char_app by exact Hx. rewrite substring_prefix.
    assert (Hs : x ++ String c r = (x ++ String c "") ++ r)
      by (rewrite str_app_assoc; reflexivity).
    rewrite Hs. replace (String.length x + 1)
      with (String.length (x ++ String c "")) by (rewrite str_app_length; reflexivity).
    replace (String.length ((x ++ String c "") ++ r) - String.length (x ++ String c ""))
      with (String.length r) by (rewrite str_app_length; lia).
    rewrite substring_suffix. f_equal. apply IH; [discriminate | exact Hrest | simpl in *; lia].
Qed.

(** strings.Split(strings.Join(l, c), c) == l for a one-byte separator
    that occurs in no element. *)
Lemma split_concat_char : forall c l, l <> [] ->
  Forall (fun x => in_cutset x c = false) l ->
  split (String.concat (String c "") l) (String c "") = l.
Proof.
  intros c l Hne Hf. unfold split. apply split_fuel_concat; auto.
  pose proof (concat_length_ge c l). lia.
Qed.

Lemma in_cutset_app : forall x y c, in_cutset (x ++ y) c = in_cutset x c || in_cutset y c.
Proof.
  induction x as [|a x IH]; intros y c; simpl; [reflexivity|].
  rewrite IH. apply orb_assoc.
Qed.

Lemma in_cutset_head : forall a r, in_cutset (String a r) a = true.
Proof. intros a r. simpl. rewrite Ascii.eqb_refl. reflexivity. Qed.

Lemma last_char : forall i, i <> "" -> exists x d, i = x ++ String d "".
Proof.
  induction i as [|a i IH]; intros H; [contradiction|].
  destruct i as [|b i]; [exists "", a; reflexivity|].
  destruct IH as [x [d E]]; [discriminate|]. exists (String a x), d. rewrite E. reflexivity.
Qed.

(** When no byte of [cs] occurs in [i], neither end of [i] is in [cs]. *)
Lemma disjoint_head : forall cs a r,
  (forall d, in_cutset cs d = true -> in_cutset (String a r) d = false) -> in_cutset cs a = false.
Proof.
  intros cs a r H. destruct (in_cutset cs a) eqn:E; [|reflexivity].
  specialize (H a E). rewrite in_cutset_head in H. discriminate.
Qed.

Lemma disjoint_last : forall cs x d,
  (forall e, in_cutset cs e = true -> in_cutset (x ++ String d "") e = false) -> in_cutset cs d = false.
Proof.
  intros cs x d H. destruct (in_cutset cs d) eqn:E; [|reflexivity].
  specialize (H d E). rewrite in_cutset_app, in_cutset_head, orb_true_r in H. discriminate.
Qed.

Lemma trim_left_first : forall cs s c r, trim_left cs s = String c r -> in_cutset cs c = false.
Proof.
  intros cs s. induction s as [|a s IH]; intros c r H; simpl in H; [discriminate|].
  destruct (in_cutset cs a) eqn:E; [exact (IH c r H)|]. injection H as <- _. exact E.
Qed.

Lemma trim_right_first : forall cs t c r, trim_right cs t = String c r -> exists r', t = String c r'.
Proof.
  intros cs [|a t] c r H; simpl in H; [discriminate|].
  destruct (String.eqb (trim_right cs t) "" && in_cutset cs a); [discriminate|].
  injection H as <- _. eauto.
Qed.

Lemma trim_right_last : forall cs t x d, trim_right cs t = x ++ String d "" -> in_cutset cs d = false.
Proof.
  intros cs t. induction t as [|a t IH]; intros x d H; simpl in H.
  - destruct x; discriminate.
  - destruct (String.eqb (trim_right cs t) "") eqn:Er; simpl in H.
    + apply String.eqb_eq in Er. destruct (in_cutset cs a) eqn:Ea; [destruct x; discriminate|].
      rewrite Er in H. destruct x as [|b x]; simpl in H.
      * injection H as <-. exact Ea.
      * injection H as _ H. destruct x; discriminate.
    + destruct x as [|b x]; simpl in H.
      * injection H as _ H. rewrite H in Er. discriminate.
      * injection H as _ H. exact (IH x d H).
Qed.

(** strings.Trim leaves no byte of the cutset at either end. *)
Lemma trim_ends : forall s cs,
  (forall c r, trim s cs = String c r -> in_cutset cs c = false)
  /\ (forall x d, trim s cs = x ++ String d "" -> in_cutset cs d = false).
Proof.
  intros s cs. unfold trim. split.
  - intros c r H. destruct (trim_right_first _ _ _ _ H) as [r' H'].
    exact (trim_left_first _ _ _ _ H').
  - intros x d H. exact (trim_right_last _ _ _ _ H).
Qed.

Lemma trim_right_keep : forall cs x d y, in_cutset cs d = false -> trim_right cs y = "" ->
  trim_right cs (x ++ String d y) = x ++ String d "".
Proof.
  intros cs x d y Hd Hy. induction x as [|a x IH]; simpl.
  - rewrite Hy, Hd. reflexivity.
  - rewrite IH. destruct x; reflexivity.
Qed.

(** A message id in angle brackets, trimmed with the cutset "<> ". *)
Lemma trim_bracketed : forall i, i <> "" ->
  (forall d, in_cutset msgid_cutset d = true -> in_cutset i d = false) ->
  trim ("<" ++ i ++ ">") msgid_cutset = i.
Proof.
  intros i Hne H. destruct i as [|a r]; [contradiction|].
  pose proof (disjoint_head _ _ _ H) as Ha.
  unfold trim. simpl.
  change ((a =? "<")%char || ((a =? ">")%char || ((a =? " ")%char || false)))
    with (in_cutset msgid_cutset a).
  rewrite Ha. change (String a (r ++ ">")) with (String a r ++ ">").
  destruct (last_char (String a r)) as [x [d E]]; [discriminate|].
  rewrite E in H |- *. pose proof (disjoint_last _ _ _ H) as Hd.
  rewrite str_app_assoc. apply trim_right_keep; [exact Hd | reflexivity].
Qed.

End StringFacts.

(** * Further properties of the parser *)

Section Extras.
Context {ML : MimeLib} {AL : MailLib}.

Lemma general_path_literal : forall w ws,
  (forall x, In x (w :: ws) -> word_decode x = None) ->
  general_path (w :: ws) = String.concat " " (w :: ws).
Proof.
  intros w ws. revert w. induction ws as [|x ws IH]; intros w H.
  - simpl. unfold token_out. rewrite (H w (or_introl eq_refl)). apply append_empty_right.
  - specialize (IH x (fun y Hy => H y (or_intror Hy))).
    rewrite concat_cons2, <- IH.
    assert (Tw : token_out true w = w)
      by (unfold token_out; rewrite (H w (or_introl eq_refl)); reflexivity).
    assert (Tx1 : token_out false x = " " ++ x)
      by (unfold token_out; rewrite (H x (or_intror (or_introl eq_refl))); reflexivity).
    assert (Tx2 : token_out true x = x)
      by (unfold token_out; rewrite (H x (or_intror (or_introl eq_refl))); reflexivity).
    cbn [general_path map fold_right]. rewrite Tw, Tx1, Tx2. reflexivity.
Qed.

Lemma decode_values_panic : forall vs,
  (exists m, decode_values vs = Panic m) <->
  exists v, In v vs /\ exists m, decodeMimeSentence v = Panic m.
Proof.
  induction vs as [|v vs IH]; simpl.
  - split; [intros [m H]; discriminate | intros [v [[] _]]].
  - destruct (decodeMimeSentence v) as [d|m] eqn:Hv.
    + destruct (decode_values vs) as [ds|m'] eqn:Hr.
      * split; [intros [m H]; discriminate|].
        intros [w [[<-|Hw] [m Hm]]]; [congruence|].
        destruct (proj2 IH (ex_intro _ w (conj Hw (ex_intro _ m Hm)))) as [m' H']. discriminate.
      * split; [|eauto]. intros _. destruct (proj1 IH (ex_intro _ m' eq_refl)) as [w [Hw Hm]].
        eauto.
    + split; [intros _; exists v; eauto | eauto].
Qed.

Lemma decode_header_entries_panic : forall h,
  (exists m, decode_header_entries h = Panic m) <->
  exists k vs v, In (k, vs) h /\ In v vs /\ exists m, decodeMimeSentence v = Panic m.
Proof.
  induction h as [|[k vs] h IH]; simpl.
  - split; [intros [m H]; discriminate | intros [k [vs [v [[] _]]]]].
  - destruct (decode_values vs) as [vs'|m] eqn:Hv.
    + destruct (decode_header_entries h) as [h'|m'] eqn:Hr.
      * split; [intros [m H]; discriminate|].
        intros [k' [vs0 [v [[E|Hin] [Hv0 Hm]]]]].
        -- injection E as <- <-.
           destruct (proj2 (decode_values_panic vs) (ex_intro _ v (conj Hv0 Hm))) as [m H].
           congruence.
        -- destruct (proj2 IH (ex_intro _ k' (ex_intro _ vs0 (ex_intro _ v (conj Hin (conj Hv0 Hm))))))
             as [m H]. discriminate.
      * split; [|eauto]. intros _.
        destruct (proj1 IH (ex_intro _ m' eq_refl)) as [k' [vs0 [v [Hin [Hv0 Hm]]]]].
        exists k', vs0, v. auto.
    + split; [|eauto]. intros _.
      destruct (proj1 (decode_values_panic vs) (ex_intro _ m Hv)) as [v [Hv0 Hm]].
      exists k, vs, v. auto.
Qed.

Lemma header_get_in : forall h k, header_get h k <> "" ->
  exists k' vs, In (k', vs) h /\ In (header_get h k) vs.
Proof.
  induction h as [|[k' vs] h IH]; intros k H; simpl in *; [contradiction|].
  destruct (String.eqb (canonical_key k) k').
  - destruct vs as [|v vs]; [contradiction|]. exists k', (v :: vs). simpl. auto.
  - destruct (IH k H) as [k0 [vs0 [Hin Hv]]]. eauto.
Qed.
Lemma createEmailFromHeader_fields : forall header em err,
  createEmailFromHeader header = Normal (em, err) ->
  em_MessageID em = parseMessageId (mkHeaderParser header None) (header_get header "Message-ID")
  /\ em_ResentMessageID em
       = parseMessageId (mkHeaderParser header None) (header_get header "Resent-Message-ID")
  /\ em_InReplyTo em
       = parseMessageIdList (mkHeaderParser header None) (header_get header "In-Reply-To")
  /\ em_References em
       = parseMessageIdList (mkHeaderParser header None) (header_get header "References")
  /\ decodeMimeSentence (header_get header "Subject") = Normal (em_Subject em)
  /\ decode_header_entries header = Normal (em_Header em).
Proof.
  intros header em err. unfold createEmailFromHeader.
  destruct (decodeMimeSentence (header_get header "Subject")) as [subj|m] eqn:Hs; [|discriminate].
  simpl. unfold decodeHeaderMime.
  destruct (decode_header_entries header) as [h|m]; [|discriminate].
  intros H. inversion H. subst. simpl. repeat split; reflexivity.
Qed.

Lemma flat_map_map_id : forall (f : string -> list string) (b : string -> string) l,
  (forall i, In i l -> f (b i) = [i]) -> flat_map f (map b l) = l.
Proof.
  intros f b l H. induction l as [|i l IH]; [reflexivity|].
  simpl. rewrite H by (left; reflexivity). simpl. f_equal. apply IH. intros j Hj. apply H. right. exact Hj.
Qed.

(** An id that contains none of the bytes of "<> " and is not empty. *)
Lemma parseMessageIdList_joined : forall hp ids,
  has_err hp = false -> ids <> [] ->
  Forall (fun i => i <> "" /\ forall d, in_cutset msgid_cutset d = true -> in_cutset i d = false) ids ->
  parseMessageIdList hp (String.concat " " (map (fun i => "<" ++ i ++ ">") ids)) = ids.
Proof.
  intros hp ids He Hne Hf. unfold parseMessageIdList. rewrite He. cbv iota.
  rewrite split_concat_char.
  - apply flat_map_map_id. intros i Hin. rewrite Forall_forall in Hf.
    destruct (Hf i Hin) as [Hi Hd]. cbv beta.
    assert (Hb : String.eqb (trim ("<" ++ i ++ ">") addr_cutset) "" = false).
    { apply String.eqb_neq. unfold trim. simpl. rewrite andb_false_r. discriminate. }
    rewrite Hb. unfold parseMessageId. rewrite He. cbv iota.
    rewrite trim_bracketed by assumption. reflexivity.
  - destruct ids; [contradiction | discriminate].
  - clear Hne. induction Hf as [|i ids [Hi Hd] Hf IH]; constructor; [|exact IH].
    simpl. rewrite in_cutset_app, (Hd " "%char eq_refl). reflexivity.
Qed.

Lemma parseMessageId_ends : forall hp s,
  (forall c r, parseMessageId hp s = String c r -> in_cutset msgid_cutset c = false)
  /\ (forall x d, parseMessageId hp s = x ++ String d "" -> in_cutset msgid_cutset d = false).
Proof.
  intros hp s. unfold parseMessageId. destruct (has_err hp).
  - split; [intros c r H; discriminate | intros x d H; destruct x; discriminate].
  - apply trim_ends.
Qed.

Lemma parseMessageIdList_elems : forall hp s id,
  In id (parseMessageIdList hp s) -> exists p, id = parseMessageId hp p.
Proof.
  intros hp s id. unfold parseMessageIdList. destruct (has_err hp); [intros []|].
  intros H. apply in_flat_map in H as [p [_ Hp]].
  destruct (negb _); [destruct Hp as [<-|[]]; eauto | destruct Hp].
Qed.
(** X1: a header value outside the KOI8-R fast path, none of whose
    space-separated tokens decodes as an encoded word, comes out of
    decodeMimeSentence unchanged (spaces included). *)
Theorem decodeMimeSentence_plain_unchanged : forall s,
  has_prefix "=?koi8-r" (to_lower s) = false ->
  (forall w, In w (split s " ") -> word_decode w = None) ->
  decodeMimeSentence s = Normal s.
Proof.
  intros s Hp Hw. rewrite decodeMimeSentence_general by exact Hp.
  pose proof (concat_split s " " ltac:(discriminate)) as Hc.
  destruct (split_fuel_cons (S (String.length s)) s " ") as [w [ws E]].
  change (split_fuel (S (String.length s)) s " ") with (split s " ") in E.
  rewrite E in Hw, Hc |- *. rewrite general_path_literal by exact Hw. rewrite Hc. reflexivity.
Qed.

(** X2: decodeMimeSentence panics exactly on the values that start with
    =?koi8-r (after strings.ToLower) and either are shorter than 13 bytes
    or have a first 11 bytes that strings.ToLower shrinks below 10 bytes;
    on every other value it returns normally. *)
Theorem decodeMimeSentence_panics_iff : forall s,
  (exists m, decodeMimeSentence s = Panic m)
  <-> has_prefix "=?koi8-r" (to_lower s) = true
      /\ (String.length s < 13 \/ String.length (to_lower (substring 0 prefixLen s)) < 10).
Proof. exact decodeMimeSentence_panic_cond. Qed.

(** X3: createEmailFromHeader panics exactly when some value of some
    header field is such a KOI8-R value. *)
Theorem createEmailFromHeader_panics_iff : forall header,
  (exists m, createEmailFromHeader header = Panic m)
  <-> exists k vs v, In (k, vs) header /\ In v vs
       /\ has_prefix "=?koi8-r" (to_lower v) = true
       /\ (String.length v < 13 \/ String.length (to_lower (substring 0 prefixLen v)) < 10).
Proof.
  intros header.
  assert (Hcond : (exists k vs v, In (k, vs) header /\ In v vs
                    /\ has_prefix "=?koi8-r" (to_lower v) = true
                    /\ (String.length v < 13
                        \/ String.length (to_lower (substring 0 prefixLen v)) < 10))
                  <-> exists k vs v, In (k, vs) header /\ In v vs
                    /\ exists m, decodeMimeSentence v = Panic m).
  { split; intros [k [vs [v [Hk [Hv Hc]]]]]; exists k, vs, v;
      (split; [exact Hk | split; [exact Hv | apply decodeMimeSentence_panic_cond; exact Hc]]). }
  rewrite Hcond, <- decode_header_entries_panic.
  unfold createEmailFromHeader.
  destruct (decodeMimeSentence (header_get header "Subject")) as [subj|m] eqn:Hs.
  - simpl. unfold decodeHeaderMime.
    destruct (decode_header_entries header) as [h|m]; split; intros [m' H]; try discriminate; eauto.
  - split; [intros _|eauto].
    assert (Hne : header_get header "Subject" <> "").
    { intros E. rewrite E in Hs. discriminate. }
    destruct (header_get_in _ _ Hne) as [k [vs [Hk Hv]]].
    apply decode_header_entries_panic. exists k, vs, (header_get header "Subject"). eauto.
Qed.

(** X4: a References or In-Reply-To field made of ids in angle brackets
    separated by single spaces is returned as the list of the bare ids, in
    order (an id being non-empty and free of the bytes <, > and space). *)
Theorem createEmailFromHeader_message_id_lists : forall ids,
  ids <> [] ->
  Forall (fun i => i <> "" /\ forall d, in_cutset msgid_cutset d = true -> in_cutset i d = false) ids ->
  forall header em err, createEmailFromHeader header = Normal (em, err) ->
  (header_get header "References" = String.concat " " (map (fun i => "<" ++ i ++ ">") ids) ->
   em_References em = ids)
  /\ (header_get header "In-Reply-To" = String.concat " " (map (fun i => "<" ++ i ++ ">") ids) ->
      em_InReplyTo em = ids).
Proof.
  intros ids Hne Hf header em err H.
  destruct (createEmailFromHeader_fields _ _ _ H) as [_ [_ [Hi [Hr _]]]].
  split; intros E; [rewrite Hr, E | rewrite Hi, E]; apply parseMessageIdList_joined; auto.
Qed.

(** X5: the message ids createEmailFromHeader returns (Message-ID,
    Resent-Message-ID and the items of In-Reply-To and References) never
    begin or end with <, > or a space. *)
Theorem createEmailFromHeader_message_ids_trimmed : forall header em err,
  createEmailFromHeader header = Normal (em, err) ->
  forall id, id = em_MessageID em \/ id = em_ResentMessageID em
             \/ In id (em_InReplyTo em) \/ In id (em_References em) ->
  (forall c r, id = String c r -> in_cutset msgid_cutset c = false)
  /\ (forall x d, id = x ++ String d "" -> in_cutset msgid_cutset d = false).
Proof.
  intros header em err H id Hid.
  destruct (createEmailFromHeader_fields _ _ _ H) as [Hm [Hrm [Hi [Hr _]]]].
  assert (Hp : exists hp p, id = parseMessageId hp p).
  { destruct Hid as [E|[E|[E|E]]].
    - rewrite Hm in E. eauto.
    - rewrite Hrm in E. eauto.
    - rewrite Hi in E. destruct (parseMessageIdList_elems _ _ _ E) as [p ->]. eauto.
    - rewrite Hr in E. destruct (parseMessageIdList_elems _ _ _ E) as [p ->]. eauto. }
  destruct Hp as [hp [p ->]]. apply parseMessageId_ends.
Qed.
Ltac close_acc :=
  simpl; rewrite ?append_empty_right, ?app_nil_r, ?str_app_assoc, <- ?app_assoc; simpl;
  reflexivity.

Ltac split_loop_cases :=
  repeat match goal with
  | |- context [if ?b then _ else _] => destruct b
  | |- context [match decode_text_leaf ?p with _ => _ end] => destruct (decode_text_leaf p)
  | |- context [match read_all ?r ?s ?e with _ => _ end] =>
      destruct (read_all r s e) as [[? [?|]] ?]
  | |- context [match decodeEmbeddedFile ?p with _ => _ end] =>
      destruct (decodeEmbeddedFile p) as [[? [?|]]|?]
  | |- context [match decodeAttachment ?p with _ => _ end] =>
      destruct (decodeAttachment p) as [[? [?|]]|?]
  | |- context [match related_loop (?f ?y) "" "" [] with _ => _ end] =>
      destruct (related_loop (f y) "" "" []) as [[[[? ?] ?] [?|]]|?]
  | |- context [match alternative_loop (?f ?y) "" "" [] with _ => _ end] =>
      destruct (alternative_loop (f y) "" "" []) as [[[[? ?] ?] [?|]]|?]
  | |- context [match parseMultipartAlternative ?p ?b with _ => _ end] =>
      destruct (parseMultipartAlternative p b) as [[[[? ?] ?] [?|]]|?]
  | |- context [match parseMultipartRelated ?p ?b with _ => _ end] =>
      destruct (parseMultipartRelated p b) as [[[[? ?] ?] [?|]]|?]
  end.

(** X6: the part loops of parseMultipartAlternative and
    parseMultipartRelated only append to their accumulators: a run from
    given text, HTML and embedded-file accumulators returns the result of
    the run from empty ones with the given values in front, errors and
    panics included. *)
Theorem multipart_loops_append_only : forall ps,
  (forall tb hb ef, alternative_loop ps tb hb ef =
     match alternative_loop ps "" "" [] with
     | Normal (t, h, e, r) => Normal (tb ++ t, hb ++ h, (ef ++ e)%list, r)
     | Panic m => Panic m end)
  /\ (forall tb hb ef, related_loop ps tb hb ef =
     match related_loop ps "" "" [] with
     | Normal (t, h, e, r) => Normal (tb ++ t, hb ++ h, (ef ++ e)%list, r)
     | Panic m => Panic m end).
Proof.
  induction ps as [|e|[h body berr sub] rest IH].
  - split; intros; simpl; rewrite !append_empty_right, app_nil_r; reflexivity.
  - split; intros; simpl; rewrite !append_empty_right, app_nil_r; reflexivity.
  - destruct IH as [IHa IHr].
    remember (alternative_loop rest "" "" []) as A eqn:HA in IHa.
    remember (related_loop rest "" "" []) as R eqn:HR in IHr.
    split; intros tb hb ef; cbn [alternative_loop related_loop];
      (destruct (parse_media_type _) as [[ct params]|]; [|close_acc]);
      split_loop_cases; rewrite ?IHa, ?IHr;
      (destruct A as [[[[t0 h0] e0] r0]|m0]; destruct R as [[[[t1 h1] e1] r1]|m1]);
      close_acc.
Qed.

(** X7: the part loop of parseMultipartMixed only appends to its
    attachments accumulator, and what it returns does not otherwise depend
    on that accumulator: attachments already collected stay in front, in
    order, whatever the remaining parts do (errors included). *)
Theorem mixed_loop_attachments_append_only : forall ps tb hb ats ats' ef,
  mixed_loop ps tb hb (ats ++ ats') ef =
  match mixed_loop ps tb hb ats' ef with
  | Normal (t, h, a, e, r) => Normal (t, h, (ats ++ a)%list, e, r)
  | Panic m => Panic m
  end.
Proof.
  induction ps as [|e|p rest IH]; intros tb hb ats ats' ef; [reflexivity|reflexivity|].
  cbn [mixed_loop]. destruct (parse_media_type _) as [[ct params]|]; [|reflexivity].
  split_loop_cases; try reflexivity;
    rewrite <- ?app_assoc; rewrite (IH _ _ ats); reflexivity.
Qed.
Lemma decode_values_spec : forall vs vs', decode_values vs = Normal vs' ->
  Forall2 (fun v v' => decodeMimeSentence v = Normal v') vs vs'.
Proof.
  induction vs as [|v vs IH]; intros vs' H; simpl in H.
  - injection H as <-. constructor.
  - destruct (decodeMimeSentence v) as [d|m] eqn:Hv; [|discriminate].
    destruct (decode_values vs) as [ds|m] eqn:Hr; [|discriminate].
    injection H as <-. constructor; [exact Hv | apply IH; reflexivity].
Qed.

(** X8: decodeHeaderMime never reports an error; it keeps the header
    names in order and replaces every value, one for one, by its
    decodeMimeSentence result. *)
Theorem decodeHeaderMime_shape : forall header h' err,
  decodeHeaderMime header = Normal (h', err) ->
  err = None /\ map fst h' = map fst header
  /\ Forall2 (fun vs vs' => Forall2 (fun v v' => decodeMimeSentence v = Normal v') vs vs')
       (map snd header) (map snd h').
Proof.
  intros header h' err. unfold decodeHeaderMime.
  destruct (decode_header_entries header) as [parsed|m] eqn:Hd; [|discriminate].
  intros H. injection H as <- <-. split; [reflexivity|].
  revert parsed Hd. induction header as [|[k vs] header IH]; intros parsed Hd; simpl in Hd.
  - injection Hd as <-. split; constructor.
  - destruct (decode_values vs) as [vs'|m] eqn:Hv; [|discriminate].
    destruct (decode_header_entries header) as [h''|m] eqn:Hr; [|discriminate].
    injection Hd as <-. destruct (IH h'' eq_refl) as [IH1 IH2].
    simpl. split; [rewrite IH1; reflexivity|].
    constructor; [apply decode_values_spec; exact Hv | exact IH2].
Qed.

(** X9: a message with no Content-Type and no Content-Transfer-Encoding
    header is read as text/plain: its body, less one trailing newline,
    becomes TextBody, undecoded and untranscoded, and no other body field
    is set. *)
Theorem ParseEmail_no_content_type : forall r h b,
  read_message r = Some (h, b) ->
  header_get h "Content-Type" = "" ->
  header_get h "Content-Transfer-Encoding" = "" ->
  (forall m, createEmailFromHeader h <> Panic m) ->
  exists em, ParseEmail r = Normal (Some em, None)
    /\ em_TextBody em = trim_suffix (part_body b) newline
    /\ em_HTMLBody em = "" /\ em_Content em = None
    /\ em_Attachments em = [] /\ em_EmbeddedFiles em = [] /\ em_ContentType em = "".
Proof.
  intros r h b Hr Hct Hcte Hnp. unfold ParseEmail. rewrite Hr.
  destruct (createEmailFromHeader h) as [[e err]|m] eqn:Hc; [|exfalso; exact (Hnp m eq_refl)].
  destruct (createEmailFromHeader_result _ _ _ Hc) as [-> [Hcont [Ht [Hh [Ha [He _]]]]]].
  cbv zeta. rewrite Hct, Hcte. simpl.
  eexists. split; [reflexivity|]. simpl.
  repeat split; assumption.
Qed.

(** X10: when the top-level Content-Type is present but mime.ParseMediaType
    rejects its sanitized form, ParseEmail returns the email with
    ContentType set, no body, and the media-type error for that header. *)
Theorem ParseEmail_bad_content_type : forall r h b,
  read_message r = Some (h, b) ->
  header_get h "Content-Type" <> "" ->
  parse_media_type (sanitizeContentTypeHeader (header_get h "Content-Type")) = None ->
  (forall m, createEmailFromHeader h <> Panic m) ->
  exists em, ParseEmail r = Normal (Some em, Some (ErrMediaType (header_get h "Content-Type")))
    /\ em_ContentType em = header_get h "Content-Type"
    /\ em_TextBody em = "" /\ em_HTMLBody em = "" /\ em_Content em = None
    /\ em_Attachments em = [] /\ em_EmbeddedFiles em = [].
Proof.
  intros r h b Hr Hne Hpm Hnp. unfold ParseEmail. rewrite Hr.
  destruct (createEmailFromHeader h) as [[e err]|m] eqn:Hc; [|exfalso; exact (Hnp m eq_refl)].
  destruct (createEmailFromHeader_result _ _ _ Hc) as [-> [Hcont [Ht [Hh [Ha [He _]]]]]].
  cbv zeta. unfold parseContentType.
  destruct (String.eqb_spec (header_get h "Content-Type") "") as [E|_]; [contradiction|].
  rewrite Hpm. eexists. split; [reflexivity|]. simpl. repeat split; assumption.
Qed.

(** X11: whenever ParseEmail returns an email, that email carries the
    message header with every value MIME-decoded, the decoded Subject, and
    the raw Content-Type header, whatever branch the body took and
    whether or not an error is returned with it. *)
Theorem ParseEmail_header_fields : forall r em err,
  ParseEmail r = Normal (Some em, err) ->
  exists h b, read_message r = Some (h, b)
    /\ decode_header_entries h = Normal (em_Header em)
    /\ decodeMimeSentence (header_get h "Subject") = Normal (em_Subject em)
    /\ em_ContentType em = header_get h "Content-Type".
Proof.
  intros r em err. unfold ParseEmail.
  destruct (read_message r) as [[h b]|]; [|discriminate].
  destruct (createEmailFromHeader h) as [[e err0]|m] eqn:Hc; [|discriminate].
  destruct (createEmailFromHeader_result _ _ _ Hc) as [-> _].
  destruct (createEmailFromHeader_fields _ _ _ Hc) as [_ [_ [_ [_ [Hs Hh]]]]].
  intros H. exists h, b. split; [reflexivity|].
  cbv zeta in H.
  repeat match type of H with
  | context [match ?x with _ => _ end] =>
      lazymatch x with
      | createEmailFromHeader _ => fail
      | _ => destruct x eqn:?
      end
  | context [if ?c then _ else _] => destruct c
  end; try discriminate; injection H as <- _; simpl; auto.
Qed.

(** X12: decodeAttachment has three outcomes.  When the transfer decoder
    fails it returns the zero Attachment with that error.  Otherwise the
    Attachment has a non-empty Filename (the decoded file name, or
    attachment-<UnixNano> when that is empty), a ContentType equal to the
    Content-Type header up to its first semicolon, and some Data; it comes
    with an error only for an application/octet-stream part whose second
    io.ReadAll(part) fails, that error being the part's read error, and
    Data is then left at the transfer decoder's reader. *)
Theorem decodeAttachment_result : forall p att err,
  decodeAttachment p = Normal (att, err) ->
  let h := part_header p in
  match decodeContent (part_body p) (part_read_err p)
          (header_get h "Content-Transfer-Encoding") (header_get h "Content-Type") with
  | (Err e, _) => att = zero_attachment /\ err = Some e
  | (Ok decoded, _) =>
      (exists f, decodeMimeSentence (part_file_name h) = Normal f
         /\ at_Filename att = (if String.eqb f "" then "attachment-" ++ unix_nano_now else f))
      /\ at_Filename att <> ""
      /\ at_ContentType att = nth 0 (split (header_get h "Content-Type") ";") ""
      /\ at_Data att <> None
      /\ (forall e, err = Some e ->
            at_ContentType att = "application/octet-stream" /\ at_Data att = Some decoded
            /\ exists m, part_read_err p = Some m /\ e = ErrRead m)
  end.
Proof.
  intros p att err. unfold decodeAttachment. cbv zeta.
  destruct (decodeMimeSentence (part_file_name (part_header p))) as [f|m] eqn:Hf; [|discriminate].
  cbv beta iota.
  assert (Hfn : (if String.eqb f "" then "attachment-" ++ unix_nano_now else f) <> "").
  { destruct (String.eqb_spec f "") as [_|Hn]; [discriminate | exact Hn]. }
  destruct (decodeContent (part_body p) _ _ _) as [[dec|de] st].
  - destruct (String.eqb_spec (nth 0 (split (header_get (part_header p) "Content-Type") ";") "")
                "application/octet-stream") as [Eo|Eo].
    + cbn [read_all]. destruct (part_read_err p) as [m|]; cbn [option_map];
        intros H; injection H as <- <-; cbn [at_Filename at_ContentType at_Data];
        (split; [eauto|]); (split; [exact Hfn|]); (split; [reflexivity|]);
        (split; [discriminate|]).
      * intros e E. injection E as <-. eauto.
      * intros e E. discriminate.
    + intros H. injection H as <- <-. cbn [at_Filename at_ContentType at_Data].
      split; [eauto|]. split; [exact Hfn|]. split; [reflexivity|]. split; [discriminate|].
      intros e E. discriminate.
  - intros H. injection H as <- <-. split; reflexivity.
Qed.
(** X13: decodeEmbeddedFile either fails in the transfer decoder, returning
    the zero EmbeddedFile with that error, or succeeds with the raw
    Content-Type header, some Data, and a CID that is the decoded
    Content-Id with its angle brackets trimmed: the CID neither starts nor
    ends with '<' or '>'. *)
Theorem decodeEmbeddedFile_result : forall p ef err,
  decodeEmbeddedFile p = Normal (ef, err) ->
  (forall e, err = Some e ->
     ef = zero_embedded
     /\ fst (decodeContent (part_body p) (part_read_err p)
              (header_get (part_header p) "Content-Transfer-Encoding")
              (header_get (part_header p) "Content-Type")) = Err e)
  /\ (err = None ->
      (exists cid, decodeMimeSentence (header_get (part_header p) "Content-Id") = Normal cid
         /\ ef_CID ef = trim cid "<>")
      /\ (forall c r, ef_CID ef = String c r -> c <> "<"%char /\ c <> ">"%char)
      /\ (forall x d, ef_CID ef = x ++ String d "" -> d <> "<"%char /\ d <> ">"%char)
      /\ ef_ContentType ef = header_get (part_header p) "Content-Type"
      /\ ef_Data ef <> None).
Proof.
  intros p ef err. unfold decodeEmbeddedFile.
  destruct (decodeMimeSentence (header_get (part_header p) "Content-Id")) as [cid|m];
    [|discriminate].
  cbv beta iota zeta.
  destruct (fst (decodeContent _ _ _ _)) as [dec|de].
  - intros H. injection H as <- <-. split; [intros e E; discriminate|].
    intros _. simpl.
    destruct (trim_ends cid "<>") as [T1 T2].
    assert (Hn : forall c, in_cutset "<>" c = false -> c <> "<"%char /\ c <> ">"%char).
    { intros c Hc. simpl in Hc.
      destruct (Ascii.eqb_spec c "<"%char); [discriminate|].
      destruct (Ascii.eqb_spec c ">"%char); [discriminate|]. auto. }
    split; [eauto|]. split; [intros c0 r0 E; apply Hn; eauto|].
    split; [intros x0 d0 E; apply Hn; eauto|]. split; [reflexivity | discriminate].
  - intros H. injection H as <- <-. split; [|discriminate].
    intros e E. injection E as <-. split; reflexivity.
Qed.
Lemma sanitize_loop_spec : forall params seen,
  let out := sanitize_loop seen params in
  let keys := map (fun p => to_lower (nth 0 (split p "=") ""))
                  (filter (fun p => contains p "=") out) in
  Forall (fun p => p <> "" /\ In p (map trim_space params)) out
  /\ NoDup keys /\ Forall (fun k => ~ In k seen) keys.
Proof.
  induction params as [|p0 ps IH]; intros seen; simpl.
  - repeat constructor.
  - destruct (String.eqb_spec (trim_space p0) "") as [E|E].
    + destruct (IH seen) as [A [B C]]. split; [|auto].
      eapply Forall_impl; [|exact A]. simpl. intros x [? ?]. auto.
    + destruct (contains (trim_space p0) "=") eqn:Hc.
      * set (k := to_lower (nth 0 (split (trim_space p0) "=") "")).
        destruct (existsb (String.eqb k) seen) eqn:Hs.
        -- destruct (IH seen) as [A [B C]]. split; [|auto].
           eapply Forall_impl; [|exact A]. simpl. intros x [? ?]. auto.
        -- destruct (IH (k :: seen)) as [A [B C]].
           simpl. rewrite Hc. simpl. fold k.
           split; [constructor; [auto|] |].
           { eapply Forall_impl; [|exact A]. simpl. intros x [? ?]. auto. }
           assert (Nk : ~ In k seen).
           { intros Hin. assert (existsb (String.eqb k) seen = true) as Ht
               by (apply existsb_exists; exists k; split; [exact Hin | apply String.eqb_refl]).
             congruence. }
           split.
           ++ constructor; [|exact B].
              intros Hin. rewrite Forall_forall in C. apply (C k Hin). left; reflexivity.
           ++ constructor; [exact Nk|].
              eapply Forall_impl; [|exact C]. simpl. intros x Hx Hin. apply Hx. right; exact Hin.
      * destruct (IH seen) as [A [B C]].
        simpl. rewrite Hc. split; [constructor; [auto|] | auto].
        eapply Forall_impl; [|exact A]. simpl. intros x [? ?]. auto.
Qed.

Lemma existsb_eqb_in : forall k l, existsb (String.eqb k) l = true <-> In k l.
Proof.
  intros k l. rewrite existsb_exists. split.
  - intros [x [Hx E]]. apply String.eqb_eq in E. subst. exact Hx.
  - intros H. exists k. split; [exact H | apply String.eqb_refl].
Qed.

(** The loop of sanitizeContentTypeHeader over a list of pieces split in
    two: the second half is processed with the keys seen in the first. *)
Lemma sanitize_loop_app : forall xs seen,
  exists seen',
    (forall k, In k seen' <-> In k seen \/
       exists q, In q xs /\ contains (trim_space q) "=" = true
                 /\ to_lower (nth 0 (split (trim_space q) "=") "") = k)
    /\ forall ys, sanitize_loop seen (xs ++ ys) = (sanitize_loop seen xs ++ sanitize_loop seen' ys)%list.
Proof.
  induction xs as [|x xs IH]; intros seen.
  - exists seen. split; [|reflexivity]. intros k. split; [auto|].
    intros [H|[q [[] _]]]. exact H.
  - cbn [sanitize_loop app].
    destruct (String.eqb_spec (trim_space x) "") as [E|E].
    + destruct (IH seen) as [S [HS HA]]. exists S. split; [|exact HA].
      intros k. rewrite HS. split.
      * intros [H|[q [Hq R]]]; [left; exact H | right; exists q; split; [right; exact Hq | exact R]].
      * intros [H|[q [[<-|Hq] [Hc R]]]]; [left; exact H | | right; exists q; auto].
        rewrite E in Hc. discriminate.
    + destruct (contains (trim_space x) "=") eqn:Hc.
      * set (key := to_lower (nth 0 (split (trim_space x) "=") "")).
        destruct (existsb (String.eqb key) seen) eqn:Hs.
        -- destruct (IH seen) as [S [HS HA]]. exists S. split; [|exact HA].
           intros k. rewrite HS. split.
           ++ intros [H|[q [Hq R]]]; [left; exact H | right; exists q; split; [right; exact Hq | exact R]].
           ++ intros [H|[q [[<-|Hq] [Hc' R]]]]; [left; exact H | | right; exists q; auto].
              left. apply existsb_eqb_in in Hs. fold key in R. rewrite <- R. exact Hs.
        -- destruct (IH (key :: seen)) as [S [HS HA]]. exists S.
           split; [|intros ys; rewrite HA; reflexivity].
           intros k. rewrite HS. simpl. split.
           ++ intros [[<-|H]|[q [Hq R]]].
              ** right. exists x. auto.
              ** left; exact H.
              ** right; exists q; split; [right; exact Hq | exact R].
           ++ intros [H|[q [[<-|Hq] [Hc' R]]]]; [left; right; exact H | left; left; exact R |].
              right. exists q. auto.
      * destruct (IH seen) as [S [HS HA]]. exists S. split; [|intros ys; rewrite HA; reflexivity].
        intros k. rewrite HS. split.
        -- intros [H|[q [Hq R]]]; [left; exact H | right; exists q; split; [right; exact Hq | exact R]].
        -- intros [H|[q [[<-|Hq] [Hc' R]]]]; [left; exact H | congruence | right; exists q; auto].
Qed.

(** X14: sanitizeContentTypeHeader keeps only non-empty, space-trimmed
    pieces of the header split at ';' and joins them with "; "; among the
    pieces it keeps that contain '=', no two have the same lower-cased key
    (the text before the first '=').  The first piece with a given key is
    kept, in place after what the earlier pieces gave; any later piece with
    a key already seen is dropped, the output being that of the header
    without it. *)
Theorem sanitizeContentTypeHeader_unique_keys : forall ct,
  (exists out, sanitizeContentTypeHeader ct = String.concat "; " out
    /\ Forall (fun p => p <> "" /\ In p (map trim_space (split ct ";"))) out
    /\ NoDup (map (fun p => to_lower (nth 0 (split p "=") ""))
                  (filter (fun p => contains p "=") out)))
  /\ (forall xs p0 ys, split ct ";" = (xs ++ p0 :: ys)%list ->
      let key := fun q => to_lower (nth 0 (split q "=") "") in
      let p := trim_space p0 in
      contains p "=" = true ->
      ((forall q, In q xs -> contains (trim_space q) "=" = true -> key (trim_space q) <> key p) ->
       exists rest, sanitizeContentTypeHeader ct = String.concat "; " (sanitize_loop [] xs ++ p :: rest))
      /\ ((exists q, In q xs /\ contains (trim_space q) "=" = true /\ key (trim_space q) = key p) ->
          sanitizeContentTypeHeader ct = String.concat "; " (sanitize_loop [] (xs ++ ys)))).
Proof.
  intros ct. split.
  - exists (sanitize_loop [] (split ct ";")).
    destruct (sanitize_loop_spec (split ct ";") []) as [A [B _]].
    split; [reflexivity|]. split; assumption.
  - intros xs p0 ys Hs key p Hc. unfold sanitizeContentTypeHeader. rewrite Hs.
    destruct (sanitize_loop_app xs []) as [S [HS HA]].
    assert (Hne : String.eqb p "" = false).
    { apply String.eqb_neq. intros E. rewrite E in Hc. discriminate. }
    assert (Hstep : sanitize_loop S (p0 :: ys) =
              if existsb (String.eqb (key p)) S then sanitize_loop S ys
              else p :: sanitize_loop (key p :: S) ys).
    { cbn [sanitize_loop]. fold p. rewrite Hne, Hc. reflexivity. }
    split.
    + intros Hfirst. rewrite HA, Hstep.
      destruct (existsb (String.eqb (key p)) S) eqn:Hin.
      * apply existsb_eqb_in, HS in Hin as [[]|[q [Hq [Hcq R]]]].
        exfalso. exact (Hfirst q Hq Hcq R).
      * eexists. reflexivity.
    + intros Hrep. rewrite HA, Hstep, (HA ys).
      destruct (existsb (String.eqb (key p)) S) eqn:Hin; [reflexivity|].
      exfalso. destruct Hrep as [q [Hq [Hcq R]]].
      assert (In (key p) S) as Hk by (apply HS; right; exists q; auto).
      apply existsb_eqb_in in Hk. congruence.
Qed.
End Extras.

(** ** Instances of the extra properties on concrete inputs *)

Module ExtraWitnesses.
Import GoLibModel.

Definition plain_subject : string := "Hello world".

Definition ref_ids : list string := ["a@x"; "b@y"].

Definition ref_header : mheader :=
  [("Message-Id", ["<m1@x>"]); ("References", ["<a@x> <b@y>"]);
   ("Subject", ["=?UTF-8?B?aGk=?="])].

(** A message with neither Content-Type nor Content-Transfer-Encoding. *)
Definition msg_plain : string :=
  "Subject: hi" ++ crlf ++ crlf ++ "body" ++ newline.

(** A Content-Type whose parameter has no value: ParseMediaType rejects it. *)
Definition msg_bad_ct : string :=
  "Content-Type: text/plain; charset" ++ crlf ++ crlf ++ "body".

(** An application/octet-stream attachment without a transfer encoding,
    cut off before its closing boundary. *)
Definition cut_octet_part : part :=
  Part [("Content-Type", ["application/octet-stream"]);
        ("Content-Disposition", ["attachment; filename=a.bin"])]
       "abc" (Some "unexpected EOF") (fun _ => PEnd).

(** A Content-Type with a repeated charset parameter. *)
Definition dup_ct : string := "text/plain; charset=a; CHARSET=b".

Definition inline_part : part :=
  Part [("Content-Type", ["image/png"]);
        ("Content-Transfer-Encoding", ["base64"]);
        ("Content-Id", ["<img1@x>"])]
       "aGk=" None (fun _ => PEnd).

Lemma decodeMimeSentence_plain_unchanged_witness :
  decodeMimeSentence plain_subject = Normal plain_subject.
Proof.
  apply decodeMimeSentence_plain_unchanged; [reflexivity|].
  intros w Hw. vm_compute in Hw. destruct Hw as [<-|[<-|[]]]; reflexivity.
Defined.

Lemma createEmailFromHeader_message_id_lists_witness :
  match createEmailFromHeader ref_header with
  | Normal (em, _) => em_References em = ref_ids
  | Panic _ => False
  end.
Proof.
  assert (Hne : ref_ids <> []) by (vm_compute; discriminate).
  assert (Hf : Forall (fun i => i <> "" /\ forall d, in_cutset msgid_cutset d = true ->
                                  in_cutset i d = false) ref_ids).
  { repeat constructor; try (vm_compute; discriminate);
      intros [[] [] [] [] [] [] [] []]; vm_compute; intros H; first [reflexivity | discriminate]. }
  destruct (createEmailFromHeader ref_header) as [[em err]|m] eqn:Hc;
    [|vm_compute in Hc; discriminate].
  apply (proj1 (createEmailFromHeader_message_id_lists ref_ids Hne Hf ref_header em err Hc)).
  vm_compute. reflexivity.
Defined.

Lemma createEmailFromHeader_message_ids_trimmed_witness :
  match createEmailFromHeader ref_header with
  | Normal (em, _) => em_MessageID em = "m1@x"
      /\ forall c r, em_MessageID em = String c r -> in_cutset msgid_cutset c = false
  | Panic _ => False
  end.
Proof.
  destruct (createEmailFromHeader ref_header) as [[em err]|m] eqn:Hc;
    [|vm_compute in Hc; discriminate].
  split; [vm_compute in Hc; injection Hc as <- _; reflexivity|].
  exact (proj1 (createEmailFromHeader_message_ids_trimmed ref_header em err Hc
                  (em_MessageID em) (or_introl eq_refl))).
Defined.

Lemma decodeHeaderMime_shape_witness :
  match decodeHeaderMime ref_header with
  | Normal (h', err) => err = None /\ map fst h' = map fst ref_header
  | Panic _ => False
  end.
Proof.
  destruct (decodeHeaderMime ref_header) as [[h' err]|m] eqn:Hd;
    [|vm_compute in Hd; discriminate].
  destruct (decodeHeaderMime_shape ref_header h' err Hd) as [A [B _]]. auto.
Defined.

Lemma ParseEmail_no_content_type_witness :
  exists em, ParseEmail msg_plain = Normal (Some em, None) /\ em_TextBody em = "body".
Proof.
  destruct (read_message msg_plain) as [[h b]|] eqn:Hr; [|vm_compute in Hr; discriminate].
  assert (Hh : h = [("Subject", ["hi"])]) by (vm_compute in Hr; congruence).
  assert (Hb : part_body b = "body" ++ newline)
    by (vm_compute in Hr; injection Hr as _ <-; reflexivity).
  assert (H1 : header_get h "Content-Type" = "") by (rewrite Hh; reflexivity).
  assert (H2 : header_get h "Content-Transfer-Encoding" = "") by (rewrite Hh; reflexivity).
  assert (H3 : forall m, createEmailFromHeader h <> Panic m)
    by (rewrite Hh; intros m; vm_compute; discriminate).
  destruct (ParseEmail_no_content_type msg_plain h b Hr H1 H2 H3) as [em [Hp [Ht _]]].
  exists em. split; [exact Hp|]. rewrite Ht, Hb. reflexivity.
Defined.

Lemma ParseEmail_bad_content_type_witness :
  exists em, ParseEmail msg_bad_ct = Normal (Some em, Some (ErrMediaType "text/plain; charset"))
    /\ em_ContentType em = "text/plain; charset".
Proof.
  destruct (read_message msg_bad_ct) as [[h b]|] eqn:Hr; [|vm_compute in Hr; discriminate].
  assert (Hh : h = [("Content-Type", ["text/plain; charset"])]) by (vm_compute in Hr; congruence).
  assert (H1 : header_get h "Content-Type" <> "") by (rewrite Hh; vm_compute; discriminate).
  assert (H2 : parse_media_type (sanitizeContentTypeHeader (header_get h "Content-Type")) = None)
    by (rewrite Hh; vm_compute; reflexivity).
  assert (H3 : forall m, createEmailFromHeader h <> Panic m)
    by (rewrite Hh; intros m; vm_compute; discriminate).
  destruct (ParseEmail_bad_content_type msg_bad_ct h b Hr H1 H2 H3) as [em [Hp [Hc _]]].
  rewrite Hh in Hp, Hc. exists em. split; [exact Hp | exact Hc].
Defined.

Lemma ParseEmail_header_fields_witness :
  match ParseEmail msg_plain with
  | Normal (Some em, _) => exists h b, read_message msg_plain = Some (h, b)
      /\ decodeMimeSentence (header_get h "Subject") = Normal (em_Subject em)
  | _ => False
  end.
Proof.
  destruct (ParseEmail msg_plain) as [[[em|] err]|m] eqn:Hp; try (vm_compute in Hp; discriminate).
  destruct (ParseEmail_header_fields msg_plain em err Hp) as [h [b [A [_ [C _]]]]]. eauto.
Defined.

Lemma decodeAttachment_result_witness :
  match decodeAttachment cut_octet_part with
  | Normal (att, Some e) =>
      at_Filename att = "a.bin" /\ at_ContentType att = "application/octet-stream"
      /\ at_Data att = Some RPart /\ e = ErrRead "unexpected EOF"
  | _ => False
  end.
Proof.
  destruct (decodeAttachment cut_octet_part) as [[att [e|]]|m] eqn:Hd;
    try (vm_compute in Hd; discriminate).
  pose proof (decodeAttachment_result cut_octet_part att (Some e) Hd) as R.
  vm_compute in R.
  destruct R as [[f [F1 F2]] [_ [_ [_ R5]]]].
  destruct (R5 e eq_refl) as [C [D [m [M E]]]].
  injection F1 as <-. injection M as <-.
  split; [exact F2|]. split; [exact C|]. split; [exact D | exact E].
Defined.

Lemma decodeEmbeddedFile_result_witness :
  match decodeEmbeddedFile inline_part with
  | Normal (ef, None) => ef_CID ef = "img1@x" /\ ef_ContentType ef = "image/png"
  | _ => False
  end.
Proof.
  destruct (decodeEmbeddedFile inline_part) as [[ef [e|]]|m] eqn:Hd;
    try (vm_compute in Hd; discriminate).
  destruct (proj2 (decodeEmbeddedFile_result inline_part ef None Hd) eq_refl)
    as [[cid [A B]] [_ [_ [C _]]]].
  vm_compute in A. injection A as <-.
  split; [rewrite B; reflexivity | rewrite C; reflexivity].
Defined.

Lemma sanitizeContentTypeHeader_unique_keys_witness :
  (exists rest, sanitizeContentTypeHeader dup_ct
                = String.concat "; " (("text/plain" :: "charset=a" :: rest))%list)
  /\ sanitizeContentTypeHeader dup_ct = "text/plain; charset=a".
Proof.
  destruct (sanitizeContentTypeHeader_unique_keys dup_ct) as [_ T].
  assert (H1 : split dup_ct ";" = (["text/plain"] ++ " charset=a" :: [" CHARSET=b"])%list)
    by (vm_compute; reflexivity).
  assert (H2 : split dup_ct ";" = (["text/plain"; " charset=a"] ++ " CHARSET=b" :: [])%list)
    by (vm_compute; reflexivity).
  pose proof (T _ _ _ H1) as T1. pose proof (T _ _ _ H2) as T2. cbv zeta in T1, T2.
  assert (C1 : contains (trim_space " charset=a") "=" = true) by (vm_compute; reflexivity).
  assert (C2 : contains (trim_space " CHARSET=b") "=" = true) by (vm_compute; reflexivity).
  destruct (T1 C1) as [F _]. destruct (T2 C2) as [_ R].
  split.
  - destruct F as [rest E].
    + intros q [<-|[]] Hq. vm_compute. discriminate.
    + exists rest. rewrite E. reflexivity.
  - rewrite R; [vm_compute; reflexivity|].
    exists " charset=a". split; [right; left; reflexivity|]. split; vm_compute; reflexivity.
Defined.

End ExtraWitnesses.
